(** * Conversation logging and session export of the Legal RAG chatbot

    A shallow embedding of [src/pages/Chatbot.py]: the turn logger
    ([log_conversation_turn]), the exchange handler ([handle_user_input]) and
    the export transform ([export_conversation]), together with the fragment
    of Python they rely on (strings, dictionaries, exceptions). *)

From Stdlib Require Import List ZArith NArith Bool String Ascii Lia Permutation.
Import ListNotations.
Set Warnings "-register-all".
Local Open Scope Z_scope.

(** ** Python strings

    A Python [str] is a sequence of Unicode code points; a code point is a
    natural number here, so that slicing and [len] count what Python counts. *)

Module PyStr.

Definition char := N.
Definition str := list char.

(** A string literal of the source, read as code points. *)
Definition lit (s : string) : str := map N_of_ascii (list_ascii_of_string s).

Fixpoint eqb (a b : str) : bool :=
  match a, b with
  | [], [] => true
  | x :: a', y :: b' => N.eqb x y && eqb a' b'
  | _, _ => false
  end.

(** [len(s)] *)
Definition len (s : str) : Z := Z.of_nat (List.length s).

(** [s.replace(old, new)] for one-character [old] and [new]. *)
Definition replace_char (old new : char) (s : str) : str :=
  map (fun c => if N.eqb c old then new else c) s.

Fixpoint startswith (p s : str) : bool :=
  match p, s with
  | [], _ => true
  | x :: p', y :: s' => N.eqb x y && startswith p' s'
  | _ :: _, [] => false
  end.

(** [s.find(sub)]: the lowest index at which [sub] occurs, [-1] if none. *)
Fixpoint find_at (sub s : str) (i : Z) : Z :=
  if startswith sub s then i
  else match s with
       | [] => -1
       | _ :: s' => find_at sub s' (i + 1)
       end.

Definition find (s sub : str) : Z := find_at sub s 0.

(** Python resolves a negative slice bound from the end and clamps it. *)
Definition slice_bound (s : str) (i : Z) : nat :=
  Z.to_nat (if i <? 0 then Z.max 0 (len s + i) else i).

(** [s[i:]] *)
Definition slice_from (s : str) (i : Z) : str := skipn (slice_bound s i) s.

(** [s[:n]] *)
Definition slice_to (s : str) (n : Z) : str := firstn (slice_bound s n) s.

(** [c.isspace()], the table of CPython's [_PyUnicode_IsWhitespace]. *)
Definition isspace (c : char) : bool :=
  ((9 <=? c) && (c <=? 13) ||
   (28 <=? c) && (c <=? 32) ||
   (c =? 133) || (c =? 160) || (c =? 5760) ||
   (8192 <=? c) && (c <=? 8202) ||
   (c =? 8232) || (c =? 8233) || (c =? 8239) || (c =? 8287) ||
   (c =? 12288))%N.

Fixpoint lstrip (s : str) : str :=
  match s with
  | [] => []
  | c :: s' => if isspace c then lstrip s' else s
  end.

Definition rstrip (s : str) : str := rev (lstrip (rev s)).

(** [s.strip()] *)
Definition strip (s : str) : str := rstrip (lstrip s).

End PyStr.

Import PyStr.

(** ** Python values and exceptions *)

(** The values a document, its metadata or the pipeline's extracted metadata
    may hold. A [dict] keeps insertion order; its keys are strings, one entry
    per key. *)
Inductive pyval :=
| VNone
| VBool (b : bool)
| VInt (z : Z)
| VStr (s : str)
| VList (l : list pyval)
| VDict (kvs : list (str * pyval)).

(** Truth value of an object, as tested by [if x:]. *)
Definition truthy (v : pyval) : bool :=
  match v with
  | VNone => false
  | VBool b => b
  | VInt z => negb (z =? 0)
  | VStr s => match s with [] => false | _ => true end
  | VList l => match l with [] => false | _ => true end
  | VDict kvs => match kvs with [] => false | _ => true end
  end.

Inductive exn :=
| AttributeError
| TypeError
| PipelineFailure (msg : str)  (* any other subclass of [Exception] *)
| Interrupt (msg : str)        (* [KeyboardInterrupt], [SystemExit]: not an [Exception] *)
| RerunException.              (* raised by [st.rerun()]; script control, not an [Exception] *)

(** Whether [except Exception] catches it. *)
Definition is_Exception (e : exn) : bool :=
  match e with
  | AttributeError | TypeError | PipelineFailure _ => true
  | Interrupt _ | RerunException => false
  end.

Inductive result (A : Type) :=
| Ok (a : A)
| Raise (e : exn).
Arguments Ok {A} a.
Arguments Raise {A} e.

Definition rbind {A B} (r : result A) (k : A -> result B) : result B :=
  match r with
  | Ok a => k a
  | Raise e => Raise e
  end.

Fixpoint rmap {A B} (f : A -> result B) (l : list A) : result (list B) :=
  match l with
  | [] => Ok []
  | x :: l' => rbind (f x) (fun y => rbind (rmap f l') (fun ys => Ok (y :: ys)))
  end.

Fixpoint dict_lookup (k : str) (kvs : list (str * pyval)) : option pyval :=
  match kvs with
  | [] => None
  | (k', v) :: rest => if PyStr.eqb k k' then Some v else dict_lookup k rest
  end.

(** [d.get(key, default)]: only a [dict] has the method. *)
Definition py_get (d : pyval) (key : str) (default : pyval) : result pyval :=
  match d with
  | VDict kvs => Ok (match dict_lookup key kvs with Some v => v | None => default end)
  | _ => Raise AttributeError
  end.

(** [x.strip()]: only a [str] has the method. *)
Definition py_strip (x : pyval) : result str :=
  match x with
  | VStr s => Ok (strip s)
  | _ => Raise AttributeError
  end.

(** [x.replace(old, new)]: only a [str] has the method. *)
Definition py_replace (x : pyval) (old new : char) : result str :=
  match x with
  | VStr s => Ok (replace_char old new s)
  | _ => Raise AttributeError
  end.

(** [Path(x)] accepts a [str] and refuses the other values with [TypeError]. *)
Definition py_Path (x : pyval) : result str :=
  match x with
  | VStr s => Ok s
  | _ => Raise TypeError
  end.

(** [x[:n] + suffix]: a [str] is sliced and extended; no other value
    supports both operations with a [str] operand ([TypeError]; a [dict]
    gives [KeyError] from Python 3.12 on, an [Exception] as well). *)
Definition py_prefix_plus (x : pyval) (n : Z) (suffix : str) : result str :=
  match x with
  | VStr s => Ok (slice_to s n ++ suffix)
  | _ => Raise TypeError
  end.

(** [try: body / except Exception: handler] on a computed value. *)
Definition try_except {A} (body : result A) (handler : exn -> result A) : result A :=
  match body with
  | Ok a => Ok a
  | Raise e => if is_Exception e then handler e else Raise e
  end.

(** ** What the page takes from outside the repository *)

(** A reading of [datetime.now()], through the three renderings the page uses. *)
Record datetime := {
  dt_isoformat : str;  (* [.isoformat()] *)
  dt_timestamp : Z;    (* [int(.timestamp())] *)
  dt_strftime : str    (* [.strftime('%Y%m%d_%H%M%S')] *)
}.

(** Modelled from the spec: [backend.config.RAGConfig] is not part of the
    sources; these are the fields the specification lists for the
    configuration object. *)
Record RAGConfig := {
  top_k : Z;
  top_k_final : Z;
  use_rerank : bool;
  agentic_mode : str;
  use_multiagent : bool;
  llm_model_name : str;
  embedding_model_name : str;
  vector_store_dirs : list str;
  data_base_dir : str
}.

(** A retrieved document: an object whose attributes [page_content] and
    [metadata] are read by name; [None] stands for an attribute the object
    does not have. *)
Record Document := {
  page_content : option pyval;
  metadata : option pyval
}.

(** [o.attr] *)
Definition getattr (a : option pyval) : result pyval :=
  match a with
  | Some v => Ok v
  | None => Raise AttributeError
  end.

(** The result tuple of [answer_question]: answer, documents (a list or
    [None]), reasoning trace, extracted metadata. *)
Definition PipelineResult : Type := str * option (list Document) * option str * pyval.

(** [backend.rag_pipeline.answer_question], an external collaborator. *)
Definition Pipeline : Type := str -> RAGConfig -> bool -> result PipelineResult.

(** ** Session data *)

(** An entry of a turn's ["raw_sources"]: a dict with the keys
    ["page_content"] and ["metadata"]; [None] stands for an absent key. *)
Record RawSource := {
  raw_page_content : option pyval;
  raw_metadata : option pyval
}.

(** An entry of a turn's ["sources"]. *)
Record SourceSummary := {
  db_name : pyval;
  country : pyval;
  law : pyval;
  source : str
}.

(** A record of the conversation log. The keys ["raw_sources"] and
    ["extracted_metadata"] are the ones whose presence the page tests. *)
Record Turn := {
  timestamp : str;
  question : str;
  answer : str;
  num_sources : Z;
  raw_sources : option (list RawSource);
  sources : list SourceSummary;
  extracted_metadata : option pyval
}.

(** An entry of [st.session_state.messages]. *)
Inductive Message :=
| UserMessage (content : str)
| AssistantMessage (content : str) (sources : option (list Document))
    (reasoning : option str) (metadata : option pyval).

(** An entry of the exported [history]; the constructor is its ["role"]. *)
Inductive HistoryEntry :=
| UserEntry (content : str)
| AssistantEntry (content : str) (contexts : list str) (source_ids : list pyval)
    (ground_truth : str).

Definition role (e : HistoryEntry) : str :=
  match e with
  | UserEntry _ => lit "user"
  | AssistantEntry _ _ _ _ => lit "assistant"
  end.

Definition content (e : HistoryEntry) : str :=
  match e with
  | UserEntry c => c
  | AssistantEntry c _ _ _ => c
  end.

Record SessionData := {
  id : Z;
  title : str;
  history : list HistoryEntry
}.

(** What the page puts on screen, in order. Static labels are left out. The
    download button holds [final_export], the value that the page hands to
    [json.dumps(..., indent=2, ensure_ascii=False)] for the file's text. *)
Inductive UiEvent :=
| UiChatMessage (role : str)
| UiSpinner
| UiMarkdown (body : str)
| UiSourcesExpander (n : Z)
| UiDocumentHeading (i : Z)
| UiCaption (label : str) (v : pyval)
| UiText (body : str)
| UiDivider
| UiReasoningExpander
| UiMetadataExpander
| UiJson (v : pyval)
| UiError (e : exn)
| UiSidebarWarning (msg : str)
| UiDownloadButton (final_export : list SessionData) (file_name : str) (mime : str).

(** [st.session_state] *)
Record Session := {
  config : RAGConfig;
  messages : list Message;
  conversation_log : list Turn
}.

Record App := {
  session_state : Session;
  screen : list UiEvent
}.

(** The platform's [pathlib], whose parsing depends on the operating system. *)
Class Platform := {
  path_name : str -> str;        (* [Path(p).name] *)
  path_parent_name : str -> str  (* [Path(p).parent.name] *)
}.

(** [pathlib] on a POSIX system: the parts of a path are what stands between
    slashes, without the empty parts and the parts ["."]. *)
Module Posix.

Fixpoint split_slash (s cur : str) : list str :=
  match s with
  | [] => [cur]
  | c :: s' => if (c =? 47)%N then cur :: split_slash s' [] else split_slash s' (cur ++ [c])
  end.

Definition parts (p : str) : list str :=
  filter (fun x => negb (PyStr.eqb x [] || PyStr.eqb x (lit "."))) (split_slash p []).

Definition name (p : str) : str := last (parts p) [].

Definition parent_name (p : str) : str := last (removelast (parts p)) [].

End Posix.

Definition posix : Platform :=
  {| path_name := Posix.name; path_parent_name := Posix.parent_name |}.

(** ** Sequencing: values that may raise, and page code that also changes
    the session and the screen *)

Notation "'let?' x := r 'in' k" := (rbind r (fun x => k))
  (at level 10, x pattern, r at level 100, k at level 200).

Definition M (A : Type) : Type := App -> result A * App.

Definition ret {A} (a : A) : M A := fun s => (Ok a, s).

Definition bind {A B} (m : M A) (k : A -> M B) : M B :=
  fun s =>
    match m s with
    | (Ok a, s') => k a s'
    | (Raise e, s') => (Raise e, s')
    end.

Notation "x <- m ;; k" := (bind m (fun x => k))
  (at level 61, m at next level, right associativity).
Notation "m ;; k" := (bind m (fun _ => k))
  (at level 61, right associativity).

Definition raise {A} (e : exn) : M A := fun s => (Raise e, s).

Definition lift {A} (r : result A) : M A := fun s => (r, s).

(** [try: body / except Exception as e: handler], around page code: what
    the body did before it raised stays done. *)
Definition try_except_M {A} (body : M A) (handler : exn -> M A) : M A :=
  fun s =>
    match body s with
    | (Ok a, s') => (Ok a, s')
    | (Raise e, s') => if is_Exception e then handler e s' else (Raise e, s')
    end.

Definition when (b : bool) (m : M unit) : M unit := if b then m else ret tt.

Fixpoint for_each {A} (l : list A) (body : A -> M unit) : M unit :=
  match l with
  | [] => ret tt
  | x :: l' => body x ;; for_each l' body
  end.

(** [enumerate(l, start)] *)
Fixpoint enumerate {A} (l : list A) (start : Z) : list (Z * A) :=
  match l with
  | [] => []
  | x :: l' => (start, x) :: enumerate l' (start + 1)
  end.

Definition emit (e : UiEvent) : M unit :=
  fun s => (Ok tt, {| session_state := session_state s; screen := screen s ++ [e] |}).

Definition get_session : M Session := fun s => (Ok (session_state s), s).

Definition put_session (x : Session) : M unit :=
  fun s => (Ok tt, {| session_state := x; screen := screen s |}).

(** [st.session_state.messages.append(m)] *)
Definition append_message (m : Message) : M unit :=
  x <- get_session ;;
  put_session {| config := config x;
                 messages := messages x ++ [m];
                 conversation_log := conversation_log x |}.

(** [st.session_state.conversation_log.append(turn)] *)
Definition append_turn (t : Turn) : M unit :=
  x <- get_session ;;
  put_session {| config := config x;
                 messages := messages x;
                 conversation_log := conversation_log x ++ [t] |}.

(** [st.rerun()] leaves the script through a control exception. *)
Definition rerun : M unit := raise RerunException.

(** [docs or []] *)
Definition or_empty {A} (docs : option (list A)) : list A :=
  match docs with
  | Some l => l
  | None => []
  end.

(** [if docs:] for a list or [None] *)
Definition nonempty {A} (docs : option (list A)) : bool :=
  match docs with
  | Some (_ :: _) => true
  | _ => false
  end.

(** [if reasoning:] for a string or [None] *)
Definition nonblank (reasoning : option str) : bool :=
  match reasoning with
  | Some (_ :: _) => true
  | _ => false
  end.

(** [d.get(key, default)] on a record whose key may be absent. *)
Definition key_or (entry : option pyval) (default : pyval) : pyval :=
  match entry with
  | Some v => v
  | None => default
  end.

Section Page.

Context {platform : Platform}.

(** ** Conversation logging *)

(** [{"page_content": d.page_content, "metadata": d.metadata}] *)
Definition raw_source_of (d : Document) : result RawSource :=
  let? pc := getattr (page_content d) in
  let? md := getattr (metadata d) in
  Ok {| raw_page_content := Some pc; raw_metadata := Some md |}.

(** The summary entry of one document. The default of the first [get] is an
    argument, so the path of ['source'] is built whether or not ["db_name"]
    is present. *)
Definition summary_of (doc : Document) : result SourceSummary :=
  let? md := getattr (metadata doc) in
  let? src := py_get md (lit "source") (VStr (lit "")) in
  let? p := py_Path src in
  let? dbn := py_get md (lit "db_name") (VStr (path_parent_name p)) in
  let? c := py_get md (lit "country") VNone in
  let? l := py_get md (lit "law") VNone in
  let? src' := py_get md (lit "source") (VStr (lit "")) in
  let? p' := py_Path src' in
  Ok {| db_name := dbn; country := c; law := l; source := path_name p' |}.

Definition log_conversation_turn (now : datetime) (question answer : str)
    (docs : option (list Document)) (metadata : pyval) : M unit :=
  raws <- lift (rmap raw_source_of (or_empty docs)) ;;
  sums <- lift (rmap summary_of (or_empty docs)) ;;
  let turn :=
    {| timestamp := dt_isoformat now;
       question := question;
       answer := answer;
       num_sources := if nonempty docs then Z.of_nat (List.length (or_empty docs)) else 0;
       raw_sources := Some raws;
       sources := sums;
       extracted_metadata := if truthy metadata then Some metadata else None |} in
  append_turn turn.

(** ** One exchange *)

(** The body of the sources expander, for document number [i]. *)
Definition render_source (i : Z) (doc : Document) : M unit :=
  meta <- lift (getattr (metadata doc)) ;;
  emit (UiDocumentHeading i) ;;
  src <- lift (py_get meta (lit "source") (VStr (lit ""))) ;;
  p <- lift (py_Path src) ;;
  db <- lift (py_get meta (lit "db_name") (VStr (path_parent_name p))) ;;
  emit (UiCaption (lit "DB: ") db) ;;
  c <- lift (py_get meta (lit "country") (VStr (lit "unknown"))) ;;
  emit (UiCaption (lit "Country: ") c) ;;
  l <- lift (py_get meta (lit "law") (VStr (lit "unknown"))) ;;
  emit (UiCaption (lit "Law: ") l) ;;
  src' <- lift (py_get meta (lit "source") (VStr (lit ""))) ;;
  p' <- lift (py_Path src') ;;
  emit (UiCaption (lit "Source: ") (VStr (path_name p'))) ;;
  pc <- lift (getattr (page_content doc)) ;;
  snippet <- lift (py_prefix_plus pc 300 (lit "...")) ;;
  emit (UiText snippet) ;;
  emit UiDivider.

Definition handle_user_input (answer_question : Pipeline) (now : datetime)
    (prompt : str) (show_reasoning : bool) : M unit :=
  append_message (UserMessage prompt) ;;
  emit (UiChatMessage (lit "user")) ;;
  emit (UiMarkdown prompt) ;;
  emit (UiChatMessage (lit "assistant")) ;;
  emit UiSpinner ;;
  try_except_M
    (x <- get_session ;;
     r <- lift (answer_question prompt (config x) show_reasoning) ;;
     let '(answer, docs, reasoning, metadata) := r in
     emit (UiMarkdown answer) ;;
     when (nonempty docs)
       (emit (UiSourcesExpander (Z.of_nat (List.length (or_empty docs)))) ;;
        for_each (enumerate (or_empty docs) 1)
          (fun '(i, doc) => render_source i doc)) ;;
     when (nonblank reasoning && show_reasoning)
       (emit UiReasoningExpander ;;
        emit (UiMarkdown (match reasoning with Some t => t | None => [] end))) ;;
     when (truthy metadata)
       (emit UiMetadataExpander ;; emit (UiJson metadata)) ;;
     append_message
       (AssistantMessage answer docs
          (if nonblank reasoning then reasoning else None)
          (if truthy metadata then Some metadata else None)) ;;
     log_conversation_turn now prompt answer docs metadata ;;
     rerun)
    (fun e => emit (UiError e)).

(** The "Clear Conversation" button of the sidebar. *)
Definition clear_conversation : M unit :=
  x <- get_session ;;
  put_session {| config := config x; messages := []; conversation_log := [] |} ;;
  rerun.

(** ** Export *)

(** Lines 356-372: the id appended to [source_ids] for one source path.
    Each of the three branches appends exactly one value; this is that value. *)
Definition canonical_source_id (BASE_FOLDER_NAME : str) (src_path_abs : pyval)
    : result pyval :=
  try_except
    (let? normalized_path := py_replace src_path_abs 92%N 47%N in
     let start_index := find normalized_path (BASE_FOLDER_NAME ++ lit "/") in
     if negb (start_index =? -1)
     then Ok (VStr (slice_from normalized_path start_index))
     else Ok src_path_abs)
    (fun _ => Ok src_path_abs).

(** The body of the loop over a turn's ["raw_sources"], on the two lists it
    extends. *)
Definition export_source (BASE_FOLDER_NAME : str) (source : RawSource)
    (contexts : list str) (source_ids : list pyval)
    : result (list str * list pyval) :=
  let? text := py_strip (key_or (raw_page_content source) (VStr (lit ""))) in
  let contexts := contexts ++ [text] in
  let meta := key_or (raw_metadata source) (VDict []) in
  let? src_path_abs := py_get meta (lit "source") (VStr (lit "unknown_source")) in
  let? sid := canonical_source_id BASE_FOLDER_NAME src_path_abs in
  Ok (contexts, source_ids ++ [sid]).

Fixpoint export_sources (BASE_FOLDER_NAME : str) (srcs : list RawSource)
    (contexts : list str) (source_ids : list pyval)
    : result (list str * list pyval) :=
  match srcs with
  | [] => Ok (contexts, source_ids)
  | source :: rest =>
      let? (contexts, source_ids) :=
        export_source BASE_FOLDER_NAME source contexts source_ids in
      export_sources BASE_FOLDER_NAME rest contexts source_ids
  end.

(** The loop over the conversation log, on the [history] list it extends. *)
Fixpoint export_turns (BASE_FOLDER_NAME : str) (log : list Turn)
    (history : list HistoryEntry) : result (list HistoryEntry) :=
  match log with
  | [] => Ok history
  | turn :: rest =>
      let history := history ++ [UserEntry (question turn)] in
      let? (contexts, source_ids) :=
        match raw_sources turn with
        | Some srcs => export_sources BASE_FOLDER_NAME srcs [] []
        | None => Ok ([], [])
        end in
      let history :=
        history ++ [AssistantEntry (answer turn) contexts source_ids (lit "")] in
      export_turns BASE_FOLDER_NAME rest history
  end.

(** Line 331. *)
Definition export_title (first_question : str) : str :=
  if len first_question >? 60
  then slice_to first_question 60 ++ lit "..."
  else first_question.

(** [now_id] and [now_file] are the two clock readings of a successful
    export, for the session id and for the file name. *)
Definition export_conversation (now_id now_file : datetime) : M unit :=
  x <- get_session ;;
  match conversation_log x with
  | [] => emit (UiSidebarWarning (lit "No conversation to export"))
  | first_turn :: _ =>
      let BASE_FOLDER_NAME := path_name (data_base_dir (config x)) in
      let first_question := question first_turn in
      let title := export_title first_question in
      history <- lift (export_turns BASE_FOLDER_NAME (conversation_log x) []) ;;
      let session_id := dt_timestamp now_id in
      let session_data := {| id := session_id; title := title; history := history |} in
      let final_export := [session_data] in
      emit (UiDownloadButton final_export
              (lit "chat_session_" ++ dt_strftime now_file ++ lit ".json")
              (lit "application/json"))
  end.

End Page.

(** ** Specification vocabulary *)

(** [sub] stands in [s] at index [k]. *)
Definition occurs_at (sub s : str) (k : nat) : Prop :=
  exists post, skipn k s = sub ++ post.

(** ... and at no lower index. *)
Definition first_occurrence (sub s : str) (k : nat) : Prop :=
  (k <= List.length s)%nat /\ occurs_at sub s k /\
  forall j, (j < k)%nat -> ~ occurs_at sub s j.

Definition no_occurrence (sub s : str) : Prop :=
  forall j, (j <= List.length s)%nat -> ~ occurs_at sub s j.

(** [c] is [text] without its leading and trailing whitespace. *)
Definition trimmed (text c : str) : Prop :=
  exists l r,
    text = l ++ c ++ r /\
    forallb isspace l = true /\ forallb isspace r = true /\
    (forall x c', c = x :: c' -> isspace x = false) /\
    (forall c' x, c = c' ++ [x] -> isspace x = false).

(** Every backslash of a path turned into a slash. *)
Definition slashes (s : str) : str :=
  map (fun c => if (c =? 92)%N then 47%N else c) s.

(** How one raw source shows in an assistant entry: [c] is its trimmed
    text and [sid] the canonical id of its ['source']. *)
Definition exported_as (BASE : str) (src : RawSource) (c : str) (sid : pyval) : Prop :=
  exists text kvs,
    key_or (raw_page_content src) (VStr (lit "")) = VStr text /\
    c = strip text /\ trimmed text c /\
    key_or (raw_metadata src) (VDict []) = VDict kvs /\
    canonical_source_id BASE
      (key_or (dict_lookup (lit "source") kvs) (VStr (lit "unknown_source"))) = Ok sid.

(** [contexts] and [source_ids] hold, index by index and in order, the
    sources of a turn. *)
Inductive aligned (BASE : str) : list RawSource -> list str -> list pyval -> Prop :=
| aligned_nil : aligned BASE [] [] []
| aligned_cons src c sid srcs cs sids :
    exported_as BASE src c sid ->
    aligned BASE srcs cs sids ->
    aligned BASE (src :: srcs) (c :: cs) (sid :: sids).

(** The history of a log: per turn, a user entry and then an assistant entry. *)
Inductive history_of (BASE : str) : list Turn -> list HistoryEntry -> Prop :=
| history_nil : history_of BASE [] []
| history_cons turn cs sids log h :
    aligned BASE (or_empty (raw_sources turn)) cs sids ->
    history_of BASE log h ->
    history_of BASE (turn :: log)
      (UserEntry (question turn) :: AssistantEntry (answer turn) cs sids (lit "") :: h).

Definition is_str (v : pyval) : bool :=
  match v with VStr _ => true | _ => false end.

Definition is_dict (v : pyval) : bool :=
  match v with VDict _ => true | _ => false end.

(** A raw source whose text is a string and whose metadata is a mapping. *)
Definition exportable_source (src : RawSource) : bool :=
  is_str (key_or (raw_page_content src) (VStr (lit ""))) &&
  is_dict (key_or (raw_metadata src) (VDict [])).

Definition exportable_log (log : list Turn) : bool :=
  forallb (fun turn => forallb exportable_source (or_empty (raw_sources turn))) log.

(** The download button that an export adds to the sidebar. *)
Definition download_of (now_file : datetime) (doc : SessionData) : UiEvent :=
  UiDownloadButton [doc]
    (lit "chat_session_" ++ dt_strftime now_file ++ lit ".json")
    (lit "application/json").

(** The export ends normally and offers [doc], leaving the session as it was. *)
Definition exports {platform : Platform} (now_id now_file : datetime) (app : App)
    (doc : SessionData) : Prop :=
  export_conversation now_id now_file app =
  (Ok tt, {| session_state := session_state app;
             screen := screen app ++ [download_of now_file doc] |}).

(** A document the logger accepts: both attributes are there, the metadata
    is a mapping, and its ['source'], when present, is a string. *)
Definition well_formed_doc (d : Document) : bool :=
  match page_content d, metadata d with
  | Some _, Some (VDict kvs) =>
      match dict_lookup (lit "source") kvs with
      | Some (VStr _) | None => true
      | Some _ => false
      end
  | _, _ => false
  end.

(** The raw form of a document: its two attributes as they are. *)
Definition raw_of (d : Document) : RawSource :=
  {| raw_page_content := page_content d; raw_metadata := metadata d |}.

(** The application after one more turn went into the log. *)
Definition with_turn (app : App) (turn : Turn) : App :=
  {| session_state :=
       {| config := config (session_state app);
          messages := messages (session_state app);
          conversation_log := conversation_log (session_state app) ++ [turn] |};
     screen := screen app |}.

(** Page code that leaves the conversation log as it found it, whether it
    returns or raises. *)
Definition keeps_log {A} (m : M A) : Prop :=
  forall app,
    conversation_log (session_state (snd (m app))) = conversation_log (session_state app).

(** An outcome that left the log at [base], or added to it one turn that the
    export can process. *)
Definition logged_at_most_one {A} (base : list Turn) (out : result A * App) : Prop :=
  conversation_log (session_state (snd out)) = base \/
  exists turn,
    conversation_log (session_state (snd out)) = base ++ [turn] /\
    forallb exportable_source (or_empty (raw_sources turn)) = true.

(** The sessions that the page can be in: it starts with empty lists
    ([init_session_state]); the user asks, exports, clears or moves a control
    of the sidebar; every rerun of the script draws the screen anew. *)
Inductive reachable {platform : Platform} : App -> Prop :=
| reach_init cfg :
    reachable {| session_state := {| config := cfg; messages := []; conversation_log := [] |};
                 screen := [] |}
| reach_input app answer_question now prompt show_reasoning :
    reachable app ->
    reachable (snd (handle_user_input answer_question now prompt show_reasoning app))
| reach_export app now_id now_file :
    reachable app -> reachable (snd (export_conversation now_id now_file app))
| reach_clear app :
    reachable app -> reachable (snd (clear_conversation app))
| reach_configure app cfg :
    reachable app ->
    reachable {| session_state :=
                   {| config := cfg;
                      messages := messages (session_state app);
                      conversation_log := conversation_log (session_state app) |};
                 screen := screen app |}
| reach_rerun app :
    reachable app -> reachable {| session_state := session_state app; screen := [] |}.

(** ** Sample data *)

Module Sample.

#[local] Existing Instance posix.

Definition cfg : RAGConfig :=
  {| top_k := 10; top_k_final := 5; use_rerank := true;
     agentic_mode := lit "react"; use_multiagent := false;
     llm_model_name := lit "llm"; embedding_model_name := lit "embedder";
     vector_store_dirs := [lit "/srv/app/vector_store/italy_codes"];
     data_base_dir := lit "/srv/app/Contest_Data" |}.

Definition fresh : App :=
  {| session_state := {| config := cfg; messages := []; conversation_log := [] |};
     screen := [] |}.

Definition noon : datetime :=
  {| dt_isoformat := lit "2025-01-01T12:00:00";
     dt_timestamp := 1735732800;
     dt_strftime := lit "20250101_120000" |}.

Definition later : datetime :=
  {| dt_isoformat := lit "2025-01-01T12:00:07";
     dt_timestamp := 1735732807;
     dt_strftime := lit "20250101_120007" |}.

Definition civil_code : Document :=
  {| page_content := Some (VStr (lit "  Art. 143. Diritti e doveri reciproci dei coniugi. "));
     metadata := Some (VDict
       [(lit "source", VStr (lit "/home/x/Contest_Data/italy_codes/civil_code.pdf"));
        (lit "country", VStr (lit "italy"))]) |}.

Definition ruling : Document :=
  {| page_content := Some (VStr (lit "Sodba II Ips 12/2019"));
     metadata := Some (VDict
       [(lit "source", VStr (lit "D:\corpus\Contest_Data\slovenia_cases\ips12.json"));
        (lit "db_name", VStr (lit "slovenia_cases"))]) |}.

(** A document object without the [metadata] attribute. *)
Definition bare : Document :=
  {| page_content := Some (VStr (lit "text")); metadata := None |}.

Definition reply : str := lit "Spouses owe each other fidelity.".

Definition answering : Pipeline :=
  fun _ _ _ =>
    Ok (reply, Some [civil_code; ruling],
        Some (lit "retrieved 2 documents"), VDict [(lit "country", VStr (lit "italy"))]).

Definition failing : Pipeline :=
  fun _ _ _ => Raise (PipelineFailure (lit "upstream timeout")).

Definition asked : str := lit "What are the duties of spouses?".

(** The session after one exchange with [answering]. *)
Definition one_exchange : App :=
  snd (handle_user_input answering noon asked false fresh).

(** The turn that this exchange logs. *)
Definition turn : Turn :=
  {| timestamp := lit "2025-01-01T12:00:00";
     question := asked;
     answer := reply;
     num_sources := 2;
     raw_sources := Some [raw_of civil_code; raw_of ruling];
     sources :=
       [{| db_name := VStr (lit "italy_codes"); country := VStr (lit "italy");
           law := VNone; source := lit "civil_code.pdf" |};
        {| db_name := VStr (lit "slovenia_cases"); country := VNone; law := VNone;
           source := lit "D:\corpus\Contest_Data\slovenia_cases\ips12.json" |}];
     extracted_metadata := Some (VDict [(lit "country", VStr (lit "italy"))]) |}.

Definition contexts : list str :=
  [lit "Art. 143. Diritti e doveri reciproci dei coniugi."; lit "Sodba II Ips 12/2019"].

Definition source_ids : list pyval :=
  [VStr (lit "Contest_Data/italy_codes/civil_code.pdf");
   VStr (lit "Contest_Data/slovenia_cases/ips12.json")].

(** The document that an export at [later] offers for it. *)
Definition session : SessionData :=
  {| id := 1735732807;
     title := asked;
     history := [UserEntry asked; AssistantEntry reply contexts source_ids (lit "")] |}.

(** The same log in another session, on a machine that keeps the data
    elsewhere. *)
Definition elsewhere : App :=
  {| session_state :=
       {| config :=
            {| top_k := 20; top_k_final := 3; use_rerank := false;
               agentic_mode := lit "react"; use_multiagent := true;
               llm_model_name := lit "llm"; embedding_model_name := lit "embedder";
               vector_store_dirs := [];
               data_base_dir := lit "/mnt/share/Contest_Data/" |};
          messages := [];
          conversation_log := [turn] |};
     screen := [UiDivider] |}.

End Sample.

(** ** The rest of the page: stored history, sidebar, script *)

Section Script.

Context {platform : Platform}.

(** Lines 175-204: one stored message drawn again. The loop over its
    sources has the body of the loop in [handle_user_input]. *)
Definition render_message (message : Message) : M unit :=
  match message with
  | UserMessage content =>
      emit (UiChatMessage (lit "user")) ;;
      emit (UiMarkdown content)
  | AssistantMessage content sources reasoning metadata =>
      emit (UiChatMessage (lit "assistant")) ;;
      emit (UiMarkdown content) ;;
      when (nonempty sources)
        (emit (UiSourcesExpander (Z.of_nat (List.length (or_empty sources)))) ;;
         for_each (enumerate (or_empty sources) 1)
           (fun '(i, doc) => render_source i doc)) ;;
      when (nonblank reasoning)
        (emit UiReasoningExpander ;;
         emit (UiMarkdown (match reasoning with Some t => t | None => [] end))) ;;
      when (match metadata with Some v => truthy v | None => false end)
        (emit UiMetadataExpander ;;
         emit (UiJson (match metadata with Some v => v | None => VNone end)))
  end.

(** [chat_input] is what [st.chat_input] returns in this run: [None], or
    the text the user has sent. *)
Definition render_chat_interface (answer_question : Pipeline) (now : datetime)
    (chat_input : option str) (show_reasoning : bool) : M unit :=
  x <- get_session ;;
  for_each (messages x) render_message ;;
  match chat_input with
  | Some (c :: prompt) => handle_user_input answer_question now (c :: prompt) show_reasoning
  | _ => ret tt
  end.

End Script.

(** [st.session_state] at the start of a run: a key may not be there yet. *)
Record RawSession := {
  raw_config : option RAGConfig;
  raw_messages : option (list Message);
  raw_conversation_log : option (list Turn)
}.

(** [init_session_state]; [fresh] is the value of [RAGConfig()], which both
    branches of the first test assign. *)
Definition init_session_state (fresh : RAGConfig) (raw : RawSession) : Session :=
  {| config := match raw_config raw with None => fresh | Some _ => fresh end;
     messages := match raw_messages raw with None => [] | Some l => l end;
     conversation_log := match raw_conversation_log raw with None => [] | Some l => l end |}.

(** What the next run finds in [st.session_state]. *)
Definition stored (x : Session) : RawSession :=
  {| raw_config := Some (config x);
     raw_messages := Some (messages x);
     raw_conversation_log := Some (conversation_log x) |}.

(** The values that the controls of the sidebar return in one run. *)
Record SidebarInput := {
  agent_mode : str;
  show_reasoning_box : bool;
  top_k_slider : Z;
  top_k_final_slider : Z;
  use_rerank_box : bool;
  export_pressed : bool;
  clear_pressed : bool
}.

(** All that one run draws, in order: what the code above draws, and what
    only the sidebar and [main] draw. Titles and other fixed texts are left
    out, as above. *)
Inductive Drawn :=
| Page (e : UiEvent)
| SideDivider
| SideText (body : str)
| SideCaption (body : str)
| SideWarning (msg : str)
| VectorStoresNotFound
| MainDivider.

Record Window := {
  window_session : Session;
  drawn : list Drawn
}.

(** How a piece of the script ends: it goes on, it stops the run
    ([st.stop()]), or it raises. *)
Inductive outcome (A : Type) :=
| Done (a : A)
| Stopped
| Raised (e : exn).
Arguments Done {A} a.
Arguments Stopped {A}.
Arguments Raised {A} e.

Definition W (A : Type) : Type := Window -> outcome A * Window.

Definition wret {A} (a : A) : W A := fun w => (Done a, w).

Definition wbind {A B} (m : W A) (k : A -> W B) : W B :=
  fun w =>
    match m w with
    | (Done a, w') => k a w'
    | (Stopped, w') => (Stopped, w')
    | (Raised e, w') => (Raised e, w')
    end.

Notation "x <~ m ;;; k" := (wbind m (fun x => k))
  (at level 61, m at next level, right associativity).
Notation "m ;;; k" := (wbind m (fun _ => k))
  (at level 61, right associativity).

(** The code modelled above, run inside the script: its drawing goes to the
    end of what is drawn. *)
Definition in_page {A} (m : M A) : W A :=
  fun w =>
    let '(r, a) := m {| session_state := window_session w; screen := [] |} in
    (match r with Ok x => Done x | Raise e => Raised e end,
     {| window_session := session_state a;
        drawn := drawn w ++ map Page (screen a) |}).

Definition draw (d : Drawn) : W unit :=
  fun w => (Done tt, {| window_session := window_session w; drawn := drawn w ++ [d] |}).

(** [st.stop()] *)
Definition stop {A} : W A := fun w => (Stopped, w).

(** An assignment to a field of [st.session_state.config]. *)
Definition update_config (f : RAGConfig -> RAGConfig) : W unit :=
  fun w =>
    (Done tt,
     {| window_session :=
          {| config := f (config (window_session w));
             messages := messages (window_session w);
             conversation_log := conversation_log (window_session w) |};
        drawn := drawn w |}).

Definition get_config : W RAGConfig := fun w => (Done (config (window_session w)), w).

Definition wwhen (b : bool) (m : W unit) : W unit := if b then m else wret tt.

Fixpoint wfor_each {A} (l : list A) (body : A -> W unit) : W unit :=
  match l with
  | [] => wret tt
  | x :: l' => body x ;;; wfor_each l' body
  end.

Definition set_agentic_mode (v : str) (c : RAGConfig) : RAGConfig :=
  {| top_k := top_k c; top_k_final := top_k_final c; use_rerank := use_rerank c;
     agentic_mode := v; use_multiagent := use_multiagent c;
     llm_model_name := llm_model_name c; embedding_model_name := embedding_model_name c;
     vector_store_dirs := vector_store_dirs c; data_base_dir := data_base_dir c |}.

Definition set_use_multiagent (v : bool) (c : RAGConfig) : RAGConfig :=
  {| top_k := top_k c; top_k_final := top_k_final c; use_rerank := use_rerank c;
     agentic_mode := agentic_mode c; use_multiagent := v;
     llm_model_name := llm_model_name c; embedding_model_name := embedding_model_name c;
     vector_store_dirs := vector_store_dirs c; data_base_dir := data_base_dir c |}.

Definition set_top_k (v : Z) (c : RAGConfig) : RAGConfig :=
  {| top_k := v; top_k_final := top_k_final c; use_rerank := use_rerank c;
     agentic_mode := agentic_mode c; use_multiagent := use_multiagent c;
     llm_model_name := llm_model_name c; embedding_model_name := embedding_model_name c;
     vector_store_dirs := vector_store_dirs c; data_base_dir := data_base_dir c |}.

Definition set_top_k_final (v : Z) (c : RAGConfig) : RAGConfig :=
  {| top_k := top_k c; top_k_final := v; use_rerank := use_rerank c;
     agentic_mode := agentic_mode c; use_multiagent := use_multiagent c;
     llm_model_name := llm_model_name c; embedding_model_name := embedding_model_name c;
     vector_store_dirs := vector_store_dirs c; data_base_dir := data_base_dir c |}.

Definition set_use_rerank (v : bool) (c : RAGConfig) : RAGConfig :=
  {| top_k := top_k c; top_k_final := top_k_final c; use_rerank := v;
     agentic_mode := agentic_mode c; use_multiagent := use_multiagent c;
     llm_model_name := llm_model_name c; embedding_model_name := embedding_model_name c;
     vector_store_dirs := vector_store_dirs c; data_base_dir := data_base_dir c |}.

(** [a <= b] on strings: Python compares them code point by code point. *)
Fixpoint str_leb (a b : str) : bool :=
  match a, b with
  | [], _ => true
  | _ :: _, [] => false
  | x :: a', y :: b' => if (x =? y)%N then str_leb a' b' else (x <? y)%N
  end.

Fixpoint insert_sorted (x : str) (l : list str) : list str :=
  match l with
  | [] => [x]
  | y :: l' => if str_leb x y then x :: l else y :: insert_sorted x l'
  end.

(** [sorted(l)] for a list of strings. *)
Definition sorted (l : list str) : list str := fold_right insert_sorted [] l.

(** [sub in s] *)
Definition contains (sub s : str) : bool := negb (find s sub =? -1).

Fixpoint digits (u : Decimal.uint) : str :=
  match u with
  | Decimal.Nil => []
  | Decimal.D0 u => 48%N :: digits u
  | Decimal.D1 u => 49%N :: digits u
  | Decimal.D2 u => 50%N :: digits u
  | Decimal.D3 u => 51%N :: digits u
  | Decimal.D4 u => 52%N :: digits u
  | Decimal.D5 u => 53%N :: digits u
  | Decimal.D6 u => 54%N :: digits u
  | Decimal.D7 u => 55%N :: digits u
  | Decimal.D8 u => 56%N :: digits u
  | Decimal.D9 u => 57%N :: digits u
  end.

(** [str(n)] for a length. *)
Definition decimal (n : nat) : str := digits (Nat.to_uint n).

(** Lines 144-149: the caption of one vector store. *)
Definition db_caption (db_name : str) : str :=
  if contains (lit "_codes") db_name
  then [32%N; 128221%N; 32%N] ++ db_name ++ lit " (Codes)"
  else if contains (lit "_cases") db_name
  then [32%N; 9878%N; 65039%N; 32%N] ++ db_name ++ lit " (Cases)"
  else [32%N; 128193%N; 32%N] ++ db_name.

Section Run.

Context {platform : Platform}.

Definition render_sidebar (input : SidebarInput) (now_id now_file : datetime) : W bool :=
  (if PyStr.eqb (agent_mode input) (lit "Single Agent (ReAct)")
   then update_config (set_agentic_mode (lit "react")) ;;;
        update_config (set_use_multiagent false)
   else update_config (set_agentic_mode (lit "react")) ;;;
        update_config (set_use_multiagent true)) ;;;
  let show_reasoning := show_reasoning_box input in
  draw SideDivider ;;;
  update_config (set_top_k (top_k_slider input)) ;;;
  update_config (set_top_k_final (top_k_final_slider input)) ;;;
  update_config (set_use_rerank (use_rerank_box input)) ;;;
  draw SideDivider ;;;
  config <~ get_config ;;;
  draw (SideText (lit "LLM: " ++ llm_model_name config)) ;;;
  draw (SideText (lit "Embeddings: " ++ embedding_model_name config)) ;;;
  (match vector_store_dirs config with
   | _ :: _ =>
       draw (SideText (lit "Vector DBs: " ++
                       decimal (List.length (vector_store_dirs config)))) ;;;
       let db_names := sorted (map path_name (vector_store_dirs config)) in
       wfor_each db_names (fun db_name => draw (SideCaption (db_caption db_name)))
   | [] => draw (SideWarning (lit "Vector DBs list is empty in config."))
   end) ;;;
  draw SideDivider ;;;
  wwhen (export_pressed input) (in_page (export_conversation now_id now_file)) ;;;
  wwhen (clear_pressed input) (in_page clear_conversation) ;;;
  wret show_reasoning.

(** One run of the script of the page. [fresh] is the value of
    [RAGConfig()]; the other arguments are what the user and the clock give
    to this run. *)
Definition main (fresh : RAGConfig) (input : SidebarInput)
    (answer_question : Pipeline) (now now_id now_file : datetime)
    (chat_input : option str) (raw : RawSession) : outcome unit * Window :=
  (config <~ get_config ;;;
   match vector_store_dirs config with
   | [] => draw VectorStoresNotFound ;;; stop
   | _ :: _ =>
       show_reasoning <~ render_sidebar input now_id now_file ;;;
       in_page (render_chat_interface answer_question now chat_input show_reasoning) ;;;
       draw MainDivider
   end)
    {| window_session := init_session_state fresh raw; drawn := [] |}.

End Run.

(** ** More vocabulary *)

(** A document that the sources expander can draw: one that the logger
    accepts and whose text is a string. *)
Definition renderable (d : Document) : bool :=
  well_formed_doc d &&
  match page_content d with Some (VStr _) => true | _ => false end.

Definition renderable_message (m : Message) : bool :=
  match m with
  | UserMessage _ => true
  | AssistantMessage _ sources _ _ => forallb renderable (or_empty sources)
  end.

(** The answers among the stored messages, in order. *)
Fixpoint assistant_answers (l : list Message) : list str :=
  match l with
  | [] => []
  | UserMessage _ :: l' => assistant_answers l'
  | AssistantMessage content _ _ _ :: l' => content :: assistant_answers l'
  end.

(** A session in which the stored messages can be drawn, the log can be
    exported, and the log holds the answers of the stored messages. *)
Definition sound (x : Session) : Prop :=
  forallb renderable_message (messages x) = true /\
  exportable_log (conversation_log x) = true /\
  map answer (conversation_log x) = assistant_answers (messages x).

(** Page code that only draws: it returns, and leaves the session as it was. *)
Definition only_draws (m : M unit) : Prop :=
  forall app, fst (m app) = Ok tt /\ session_state (snd (m app)) = session_state app.

(** Page code that leaves the session as it was, whether it returns or raises. *)
Definition keeps_session {A} (m : M A) : Prop :=
  forall app, session_state (snd (m app)) = session_state app.

(** The session after the user's message went into [messages]. *)
Definition asked_session (x : Session) (prompt : str) : Session :=
  {| config := config x;
     messages := messages x ++ [UserMessage prompt];
     conversation_log := conversation_log x |}.

(** The session after an answered exchange: two more messages, one more turn. *)
Definition answered_session (x : Session) (prompt answer : str)
    (docs : option (list Document)) (reasoning : option str) (md : pyval)
    (turn : Turn) : Session :=
  {| config := config x;
     messages := messages x ++
       [UserMessage prompt;
        AssistantMessage answer docs
          (if nonblank reasoning then reasoning else None)
          (if truthy md then Some md else None)];
     conversation_log := conversation_log x ++ [turn] |}.

Section ExchangeParts.

Context {platform : Platform}.

(** The statements of [handle_user_input] that follow the call of the
    pipeline, for the tuple it returned. *)
Definition show_and_log (now : datetime) (prompt : str) (show_reasoning : bool)
    (r : PipelineResult) : M unit :=
  let '(answer, docs, reasoning, metadata) := r in
  emit (UiMarkdown answer) ;;
  when (nonempty docs)
    (emit (UiSourcesExpander (Z.of_nat (List.length (or_empty docs)))) ;;
     for_each (enumerate (or_empty docs) 1)
       (fun '(i, doc) => render_source i doc)) ;;
  when (nonblank reasoning && show_reasoning)
    (emit UiReasoningExpander ;;
     emit (UiMarkdown (match reasoning with Some t => t | None => [] end))) ;;
  when (truthy metadata)
    (emit UiMetadataExpander ;; emit (UiJson metadata)) ;;
  append_message
    (AssistantMessage answer docs
       (if nonblank reasoning then reasoning else None)
       (if truthy metadata then Some metadata else None)) ;;
  log_conversation_turn now prompt answer docs metadata ;;
  rerun.

(** The statements inside its [try]. *)
Definition answer_and_log (answer_question : Pipeline) (now : datetime)
    (prompt : str) (show_reasoning : bool) : M unit :=
  x <- get_session ;;
  r <- lift (answer_question prompt (config x) show_reasoning) ;;
  show_and_log now prompt show_reasoning r.

End ExchangeParts.

(** How the statements after the pipeline call end, from a session [x]:
    either a document could not be drawn, an [Exception] is raised and the
    session is as it was; or all documents were drawn, the answer and the
    turn are appended and a rerun is asked for. *)
Definition shown_and_logged (x : Session) (prompt : str) (r : PipelineResult)
    (out : result unit * App) : Prop :=
  let '(a, docs, reasoning, md) := r in
  (forallb renderable (or_empty docs) = false /\
   (exists e, is_Exception e = true /\ fst out = Raise e) /\
   session_state (snd out) = x) \/
  (forallb renderable (or_empty docs) = true /\
   fst out = Raise RerunException /\
   exists turn,
     question turn = prompt /\ answer turn = a /\
     raw_sources turn = Some (map raw_of (or_empty docs)) /\
     session_state (snd out) =
       {| config := config x;
          messages := messages x ++
            [AssistantMessage a docs
               (if nonblank reasoning then reasoning else None)
               (if truthy md then Some md else None)];
          conversation_log := conversation_log x ++ [turn] |}).

(** Page code that only adds to the screen, and only events that satisfy
    [P], whether it returns or raises. *)
Definition draws_only {A} (P : UiEvent -> Prop) (m : M A) : Prop :=
  forall app, exists evs,
    screen (snd (m app)) = screen app ++ evs /\ Forall P evs.

Definition not_reasoning (e : UiEvent) : Prop := e <> UiReasoningExpander.

(** Page code under which a sound session stays sound and which raises no
    [Exception] from one. *)
Definition page_safe {A} (m : M A) : Prop :=
  forall app, sound (session_state app) ->
    sound (session_state (snd (m app))) /\
    forall e, fst (m app) = Raise e -> is_Exception e = false.

(** The same for a piece of the script. *)
Definition run_safe {A} (m : W A) : Prop :=
  forall w, sound (window_session w) ->
    sound (window_session (snd (m w))) /\
    forall e, fst (m w) = Raised e -> is_Exception e = false.

(** The stored conversation: messages and log. *)
Definition talk (x : Session) : list Message * list Turn :=
  (messages x, conversation_log x).

(** A piece of the script, or page code, that leaves a view [f] of the
    session as it was, however it ends. *)
Definition run_keeps {A T} (f : Session -> T) (m : W A) : Prop :=
  forall w, f (window_session (snd (m w))) = f (window_session w).

Definition page_keeps {A T} (f : Session -> T) (m : M A) : Prop :=
  forall app, f (session_state (snd (m app))) = f (session_state app).

(** A piece of the script that only adds to what is drawn. *)
Definition run_draws {A} (m : W A) : Prop :=
  forall w, exists ds, drawn (snd (m w)) = drawn w ++ ds.

(** The sessions between the runs of the script: the first run starts with
    an empty [st.session_state]; each run starts with what the run before
    has left. *)
Inductive between_runs {platform : Platform} : Session -> Prop :=
| first_run fresh input answer_question now now_id now_file chat_input :
    between_runs
      (window_session
         (snd (main fresh input answer_question now now_id now_file chat_input
                 {| raw_config := None; raw_messages := None;
                    raw_conversation_log := None |})))
| next_run x fresh input answer_question now now_id now_file chat_input :
    between_runs x ->
    between_runs
      (window_session
         (snd (main fresh input answer_question now now_id now_file chat_input
                 (stored x)))).

(** Strings in ascending order. *)
Fixpoint ascending (l : list str) : Prop :=
  match l with
  | [] => True
  | x :: l' => match l' with [] => True | y :: _ => str_leb x y = true end /\ ascending l'
  end.

(** The lines of the sidebar about the vector stores (lines 138-151). *)
Definition store_lines {platform : Platform} (c : RAGConfig) : list Drawn :=
  match vector_store_dirs c with
  | [] => [SideWarning (lit "Vector DBs list is empty in config.")]
  | _ :: _ =>
      SideText (lit "Vector DBs: " ++ decimal (List.length (vector_store_dirs c))) ::
      map (fun db_name => SideCaption (db_caption db_name))
          (sorted (map path_name (vector_store_dirs c)))
  end.

(** ** More sample data *)

Module Scenario.

#[local] Existing Instance posix.

Definition follow_up : str := lit "And after a separation?".

(** The session of [Sample.one_exchange] after a second exchange. *)
Definition two_exchanges : App :=
  snd (handle_user_input Sample.answering Sample.later follow_up true Sample.one_exchange).

Definition windows_path : str := lit "D:\corpus\Contest_Data\slovenia_cases\ips12.json".

Definition posix_path : str := lit "D:/corpus/Contest_Data/slovenia_cases/ips12.json".

(** A pipeline that returns a document whose ['source'] is not a string. *)
Definition odd_source : Document :=
  {| page_content := Some (VStr (lit "text"));
     metadata := Some (VDict [(lit "source", VNone)]) |}.

Definition careless : Pipeline :=
  fun _ _ _ => Ok (Sample.reply, Some [Sample.civil_code; odd_source], None, VNone).

Definition quiet : SidebarInput :=
  {| agent_mode := lit "Multi-Agent (Supervisor)"; show_reasoning_box := true;
     top_k_slider := 12; top_k_final_slider := 4; use_rerank_box := false;
     export_pressed := true; clear_pressed := false |}.

Definition clearing : SidebarInput :=
  {| agent_mode := lit "Single Agent (ReAct)"; show_reasoning_box := false;
     top_k_slider := 5; top_k_final_slider := 3; use_rerank_box := true;
     export_pressed := true; clear_pressed := true |}.

Definition first_visit : RawSession :=
  {| raw_config := None; raw_messages := None; raw_conversation_log := None |}.

Definition no_stores : RAGConfig :=
  {| top_k := 10; top_k_final := 5; use_rerank := true;
     agentic_mode := lit "react"; use_multiagent := false;
     llm_model_name := lit "llm"; embedding_model_name := lit "embedder";
     vector_store_dirs := [];
     data_base_dir := lit "/srv/app/Contest_Data" |}.

Definition several_stores : RAGConfig :=
  {| top_k := 10; top_k_final := 5; use_rerank := true;
     agentic_mode := lit "plan"; use_multiagent := false;
     llm_model_name := lit "llm"; embedding_model_name := lit "embedder";
     vector_store_dirs :=
       [lit "/srv/vs/slovenia_cases"; lit "/srv/vs/italy_codes"; lit "/srv/vs/estonia_codes"];
     data_base_dir := lit "/srv/app/Contest_Data" |}.

(** The stored form of the answer of [Sample.answering]. *)
Definition stored_answer : Message :=
  AssistantMessage Sample.reply (Some [Sample.civil_code; Sample.ruling])
    (Some (lit "retrieved 2 documents"))
    (Some (VDict [(lit "country", VStr (lit "italy"))])).

End Scenario.

(** ** Strings *)

Lemma startswith_true_iff (p s : str) :
  startswith p s = true <-> exists post, s = p ++ post.
Proof.
  revert s. induction p as [|x p IH]; intros s; simpl.
  - split; [intros _; now exists s | reflexivity].
  - destruct s as [|y s].
    + split; [discriminate | intros [post E]; discriminate].
    + rewrite andb_true_iff, N.eqb_eq, IH. split.
      * intros [-> [post ->]]. now exists post.
      * intros [post E]. injection E as -> ->. split; [reflexivity | now exists post].
Qed.

Lemma startswith_occurs (sub s : str) (k : nat) :
  startswith sub (skipn k s) = true <-> occurs_at sub s k.
Proof. apply startswith_true_iff. Qed.

Lemma not_occurs_at (sub s : str) (k : nat) :
  startswith sub (skipn k s) = false -> ~ occurs_at sub s k.
Proof.
  intros E O. apply startswith_occurs in O. congruence.
Qed.

(** [find_at] scans from the left: it stops at the first index where [sub]
    stands, and answers [-1] when it has passed the end. *)
Lemma find_at_spec (sub : str) : forall (s : str) (i : Z), 0 <= i ->
  (find_at sub s i = -1 /\ no_occurrence sub s) \/
  (exists k, find_at sub s i = i + Z.of_nat k /\ first_occurrence sub s k).
Proof.
  induction s as [|c s IH]; intros i Hi.
  - simpl. destruct (startswith sub []) eqn:E.
    + right. exists 0%nat. split; [lia|]. split; [simpl; lia|]. split.
      * now apply startswith_occurs.
      * intros j Hj. lia.
    + left. split; [reflexivity|]. intros j Hj. simpl in Hj.
      assert (j = 0%nat) as -> by lia. now apply not_occurs_at.
  - cbn [find_at]. destruct (startswith sub (c :: s)) eqn:E.
    + right. exists 0%nat. split; [lia|]. split; [simpl; lia|]. split.
      * now apply startswith_occurs.
      * intros j Hj. lia.
    + destruct (IH (i + 1)) as [[F N]|[k [F [L [O M]]]]]; [lia| |].
      * left. split; [exact F|]. intros [|j] Hj.
        -- now apply not_occurs_at.
        -- apply (N j). simpl in Hj. lia.
      * right. exists (S k). split; [lia|]. split; [simpl; lia|]. split.
        -- exact O.
        -- intros [|j] Hj.
           ++ now apply not_occurs_at.
           ++ apply (M j). lia.
Qed.

Lemma find_spec (s sub : str) :
  (find s sub = -1 /\ no_occurrence sub s) \/
  (exists k, find s sub = Z.of_nat k /\ first_occurrence sub s k).
Proof.
  unfold find. destruct (find_at_spec sub s 0) as [H|[k [F H]]]; [lia|now left|].
  right. exists k. split; [lia | exact H].
Qed.

Lemma slice_from_nonneg (s : str) (k : nat) : slice_from s (Z.of_nat k) = skipn k s.
Proof.
  unfold slice_from, slice_bound.
  destruct (Z.ltb_spec (Z.of_nat k) 0); [lia|]. now rewrite Nat2Z.id.
Qed.


Lemma lstrip_spec (s : str) :
  exists l, s = l ++ lstrip s /\ forallb isspace l = true /\
            forall x c', lstrip s = x :: c' -> isspace x = false.
Proof.
  induction s as [|c s [l [E [W H]]]]; simpl.
  - exists []. repeat split. intros x c' D. discriminate.
  - destruct (isspace c) eqn:Ec.
    + exists (c :: l). simpl. rewrite Ec, W. repeat split.
      * now f_equal.
      * exact H.
    + exists []. repeat split. intros x c' D. injection D as <- _. exact Ec.
Qed.

Lemma rstrip_spec (s : str) :
  exists r, s = rstrip s ++ r /\ forallb isspace r = true /\
            forall c' x, rstrip s = c' ++ [x] -> isspace x = false.
Proof.
  unfold rstrip. destruct (lstrip_spec (rev s)) as [l [E [W H]]].
  exists (rev l). split; [|split].
  - rewrite <- rev_app_distr, <- E. symmetry. apply rev_involutive.
  - rewrite forallb_forall in *. intros x Hx. apply W. now apply in_rev.
  - intros c' x D. apply (H x (rev c')).
    rewrite <- (rev_involutive (lstrip (rev s))), D, rev_app_distr. reflexivity.
Qed.

Lemma strip_trimmed (s : str) : trimmed s (strip s).
Proof.
  unfold strip. destruct (lstrip_spec s) as [l [El [Wl Hl]]].
  destruct (rstrip_spec (lstrip s)) as [r [Er [Wr Hr]]].
  exists l, r. split; [|split; [|split; [|split]]].
  - now rewrite <- Er.
  - exact Wl.
  - exact Wr.
  - intros x c' D. apply (Hl x (c' ++ r)). now rewrite Er, D.
  - exact Hr.
Qed.

(** ** The canonical source id *)

Lemma canonical_source_id_str (BASE : str) (s : str) :
  (exists k, first_occurrence (BASE ++ lit "/") (slashes s) k /\
             canonical_source_id BASE (VStr s) = Ok (VStr (skipn k (slashes s)))) \/
  (no_occurrence (BASE ++ lit "/") (slashes s) /\
   canonical_source_id BASE (VStr s) = Ok (VStr s)).
Proof.
  unfold canonical_source_id. cbn [py_replace rbind try_except].
  change (replace_char 92%N 47%N s) with (slashes s).
  destruct (find_spec (slashes s) (BASE ++ lit "/")) as [[F N]|[k [F O]]]; rewrite F.
  - right. split; [exact N | reflexivity].
  - left. exists k. split; [exact O|].
    destruct (Z.eqb_spec (Z.of_nat k) (-1)); [lia|].
    cbn [negb try_except]. now rewrite slice_from_nonneg.
Qed.

Lemma canonical_source_id_other (BASE : str) (v : pyval) :
  (forall s, v <> VStr s) -> canonical_source_id BASE v = Ok v.
Proof.
  intros H. destruct v; try reflexivity. now destruct (H s).
Qed.

Lemma canonical_source_id_total (BASE : str) (v : pyval) :
  exists sid, canonical_source_id BASE v = Ok sid.
Proof.
  destruct v as [| | |s| |]; try (eexists; reflexivity).
  destruct (canonical_source_id_str BASE s) as [[k [_ E]]|[_ E]]; eauto.
Qed.

(** ** The export loops *)

Lemma export_source_inv (BASE : str) (src : RawSource) ctx ids ctx' ids' :
  export_source BASE src ctx ids = Ok (ctx', ids') ->
  exists c sid, ctx' = ctx ++ [c] /\ ids' = ids ++ [sid] /\ exported_as BASE src c sid.
Proof.
  unfold export_source, exported_as.
  destruct (key_or (raw_page_content src) (VStr (lit ""))) as [| | |text| |];
    try discriminate.
  destruct (key_or (raw_metadata src) (VDict [])) as [| | | | |kvs]; try discriminate.
  cbn [py_strip py_get rbind].
  destruct (canonical_source_id_total BASE
              (key_or (dict_lookup (lit "source") kvs) (VStr (lit "unknown_source"))))
    as [sid E].
  unfold key_or at 1 in E. rewrite E. cbn [rbind]. intros H. injection H as <- <-.
  exists (strip text), sid. repeat split.
  exists text, kvs. repeat split; try reflexivity.
  - apply strip_trimmed.
  - exact E.
Qed.

Lemma export_sources_inv (BASE : str) : forall srcs ctx ids ctx' ids',
  export_sources BASE srcs ctx ids = Ok (ctx', ids') ->
  exists cs sids, ctx' = ctx ++ cs /\ ids' = ids ++ sids /\ aligned BASE srcs cs sids.
Proof.
  induction srcs as [|src srcs IH]; intros ctx ids ctx' ids' H.
  - injection H as <- <-. exists [], []. rewrite !app_nil_r. repeat split. constructor.
  - cbn [export_sources] in H.
    destruct (export_source BASE src ctx ids) as [[ctx1 ids1]|e] eqn:E; [|discriminate].
    cbn [rbind] in H.
    destruct (export_source_inv _ _ _ _ _ _ E) as [c [sid [-> [-> X]]]].
    destruct (IH _ _ _ _ H) as [cs [sids [-> [-> A]]]].
    exists (c :: cs), (sid :: sids). rewrite <- !app_assoc. repeat split.
    now constructor.
Qed.

Lemma export_turns_inv (BASE : str) : forall log h0 h,
  export_turns BASE log h0 = Ok h ->
  exists entries, h = h0 ++ entries /\ history_of BASE log entries.
Proof.
  induction log as [|turn log IH]; intros h0 h H.
  - injection H as <-. exists []. rewrite app_nil_r. split; [reflexivity | constructor].
  - cbn [export_turns] in H.
    assert (exists cs sids,
      match raw_sources turn with
      | Some srcs => export_sources BASE srcs [] []
      | None => Ok ([], [])
      end = Ok (cs, sids) /\ aligned BASE (or_empty (raw_sources turn)) cs sids)
      as [cs [sids [E A]]].
    { destruct (raw_sources turn) as [srcs|]; cbn [or_empty].
      - destruct (export_sources BASE srcs [] []) as [[cs sids]|e] eqn:E; [|discriminate].
        destruct (export_sources_inv _ _ _ _ _ _ E) as [cs' [sids' [-> [-> A]]]].
        now exists cs', sids'.
      - exists [], []. split; [reflexivity | constructor]. }
    rewrite E in H. cbn [rbind] in H.
    destruct (IH _ _ H) as [entries [-> Hh]].
    exists (UserEntry (question turn) :: AssistantEntry (answer turn) cs sids (lit "") :: entries).
    rewrite <- !app_assoc. split; [reflexivity | now constructor].
Qed.

Lemma export_source_total (BASE : str) (src : RawSource) ctx ids :
  exportable_source src = true ->
  exists c sid, export_source BASE src ctx ids = Ok (ctx ++ [c], ids ++ [sid]).
Proof.
  unfold exportable_source, export_source. intros H.
  apply andb_true_iff in H as [Hs Hd].
  destruct (key_or (raw_page_content src) (VStr (lit ""))) as [| | |text| |];
    try discriminate.
  destruct (key_or (raw_metadata src) (VDict [])) as [| | | | |kvs]; try discriminate.
  cbn [py_strip py_get rbind].
  destruct (canonical_source_id_total BASE
              (key_or (dict_lookup (lit "source") kvs) (VStr (lit "unknown_source"))))
    as [sid E].
  unfold key_or at 1 in E. rewrite E. now exists (strip text), sid.
Qed.

Lemma export_sources_total (BASE : str) : forall srcs ctx ids,
  forallb exportable_source srcs = true ->
  exists ctx' ids', export_sources BASE srcs ctx ids = Ok (ctx', ids').
Proof.
  induction srcs as [|src srcs IH]; intros ctx ids H.
  - now exists ctx, ids.
  - cbn [forallb] in H. apply andb_true_iff in H as [H1 H2].
    destruct (export_source_total BASE src ctx ids H1) as [c [sid E]].
    cbn [export_sources]. rewrite E. cbn [rbind]. now apply IH.
Qed.

Lemma export_turns_total (BASE : str) : forall log h0,
  exportable_log log = true -> exists h, export_turns BASE log h0 = Ok h.
Proof.
  induction log as [|turn log IH]; intros h0 H.
  - now exists h0.
  - unfold exportable_log in H. cbn [forallb] in H. apply andb_true_iff in H as [H1 H2].
    cbn [export_turns]. destruct (raw_sources turn) as [srcs|]; cbn [or_empty] in H1.
    + destruct (export_sources_total BASE srcs [] [] H1) as [cs [sids E]].
      rewrite E. cbn [rbind]. now apply IH.
    + cbn [rbind]. now apply IH.
Qed.

Lemma exported_as_exportable (BASE : str) src c sid :
  exported_as BASE src c sid -> exportable_source src = true.
Proof.
  intros [text [kvs [E1 [_ [_ [E2 _]]]]]]. unfold exportable_source. now rewrite E1, E2.
Qed.

Lemma aligned_exportable (BASE : str) srcs cs sids :
  aligned BASE srcs cs sids -> forallb exportable_source srcs = true.
Proof.
  induction 1 as [|src c sid srcs cs sids X _ IH]; [reflexivity|].
  cbn [forallb]. now rewrite (exported_as_exportable _ _ _ _ X), IH.
Qed.

Lemma history_of_exportable (BASE : str) log h :
  history_of BASE log h -> exportable_log log = true.
Proof.
  induction 1 as [|turn cs sids log h A _ IH]; [reflexivity|].
  unfold exportable_log in *. cbn [forallb].
  now rewrite (aligned_exportable _ _ _ _ A), IH.
Qed.

Lemma aligned_length (BASE : str) srcs cs sids :
  aligned BASE srcs cs sids ->
  List.length cs = List.length srcs /\ List.length sids = List.length srcs.
Proof.
  induction 1 as [|src c sid srcs cs sids _ _ [IH1 IH2]]; [now split|].
  simpl. now rewrite IH1, IH2.
Qed.

Lemma aligned_nth (BASE : str) srcs cs sids :
  aligned BASE srcs cs sids ->
  forall i src, nth_error srcs i = Some src ->
  exists c sid, nth_error cs i = Some c /\ nth_error sids i = Some sid /\
                exported_as BASE src c sid.
Proof.
  induction 1 as [|src0 c0 sid0 srcs cs sids X _ IH]; intros i src Hi.
  - destruct i; discriminate.
  - destruct i as [|i]; simpl in Hi.
    + injection Hi as <-. now exists c0, sid0.
    + now apply IH.
Qed.

Lemma history_of_length (BASE : str) log h :
  history_of BASE log h -> List.length h = (2 * List.length log)%nat.
Proof.
  induction 1 as [|turn cs sids log h _ _ IH]; [reflexivity|]. simpl. lia.
Qed.

Lemma history_of_turn (BASE : str) log h :
  history_of BASE log h ->
  forall k turn, nth_error log k = Some turn ->
  exists cs sids,
    nth_error h (2 * k) = Some (UserEntry (question turn)) /\
    nth_error h (2 * k + 1) = Some (AssistantEntry (answer turn) cs sids (lit "")) /\
    aligned BASE (or_empty (raw_sources turn)) cs sids.
Proof.
  induction 1 as [|turn0 cs0 sids0 log h A _ IH]; intros k turn Hk.
  - destruct k; discriminate.
  - destruct k as [|k]; simpl in Hk.
    + injection Hk as <-. now exists cs0, sids0.
    + destruct (IH k turn Hk) as [cs [sids [U [V W]]]].
      exists cs, sids. replace (2 * S k)%nat with (S (S (2 * k))) by lia.
      simpl. split; [exact U|]. split; [|exact W].
      replace (k + (k + 0) + 1)%nat with (2 * k + 1)%nat by lia. exact V.
Qed.

Lemma history_of_entry (BASE : str) log h :
  history_of BASE log h ->
  forall j e, nth_error h j = Some e ->
  exists k turn, nth_error log k = Some turn /\
    ((j = (2 * k)%nat /\ e = UserEntry (question turn)) \/
     (j = (2 * k + 1)%nat /\
      exists cs sids, e = AssistantEntry (answer turn) cs sids (lit "") /\
                      aligned BASE (or_empty (raw_sources turn)) cs sids)).
Proof.
  induction 1 as [|turn0 cs0 sids0 log h A _ IH]; intros j e Hj.
  - destruct j; discriminate.
  - destruct j as [|[|j]]; simpl in Hj.
    + injection Hj as <-. exists 0%nat, turn0. split; [reflexivity|]. now left.
    + injection Hj as <-. exists 0%nat, turn0. split; [reflexivity|]. right.
      split; [reflexivity|]. now exists cs0, sids0.
    + destruct (IH j e Hj) as [k [turn [Hk [[-> ->]|[-> X]]]]];
        exists (S k), turn; (split; [exact Hk|]).
      * left. split; [lia | reflexivity].
      * right. split; [lia | exact X].
Qed.

(** ** The export as a whole *)

Section ExportCases.

Context {platform : Platform}.

Lemma export_conversation_empty (now_id now_file : datetime) (app : App) :
  conversation_log (session_state app) = [] ->
  export_conversation now_id now_file app =
  (Ok tt, {| session_state := session_state app;
             screen := screen app ++ [UiSidebarWarning (lit "No conversation to export")] |}).
Proof.
  intros H. unfold export_conversation, bind, get_session. now rewrite H.
Qed.

Lemma export_conversation_turns (now_id now_file : datetime) (app : App) turn rest :
  conversation_log (session_state app) = turn :: rest ->
  export_conversation now_id now_file app =
  match export_turns (path_name (data_base_dir (config (session_state app))))
          (turn :: rest) [] with
  | Ok h =>
      (Ok tt, {| session_state := session_state app;
                 screen := screen app ++
                   [download_of now_file
                      {| id := dt_timestamp now_id;
                         title := export_title (question turn);
                         history := h |}] |})
  | Raise e => (Raise e, app)
  end.
Proof.
  intros H. unfold export_conversation, bind, get_session. rewrite H.
  unfold lift. now destruct (export_turns _ _ _).
Qed.

Lemma exports_inv (now_id now_file : datetime) (app : App) (doc : SessionData) :
  exports now_id now_file app doc ->
  exists turn rest h,
    conversation_log (session_state app) = turn :: rest /\
    export_turns (path_name (data_base_dir (config (session_state app))))
      (turn :: rest) [] = Ok h /\
    doc = {| id := dt_timestamp now_id;
             title := export_title (question turn);
             history := h |}.
Proof.
  unfold exports. intros H.
  destruct (conversation_log (session_state app)) as [|turn rest] eqn:L.
  - rewrite (export_conversation_empty _ _ _ L) in H.
    injection H as H. apply app_inv_head in H. discriminate.
  - rewrite (export_conversation_turns _ _ _ _ _ L) in H.
    destruct (export_turns _ _ _) as [h|e] eqn:E; [|discriminate].
    injection H as H. apply app_inv_head in H. injection H as <-.
    now exists turn, rest, h.
Qed.

Lemma exports_intro (now_id now_file : datetime) (app : App) turn rest :
  conversation_log (session_state app) = turn :: rest ->
  exportable_log (turn :: rest) = true ->
  exists doc, exports now_id now_file app doc.
Proof.
  intros L W. unfold exports. rewrite (export_conversation_turns _ _ _ _ _ L).
  destruct (export_turns_total
              (path_name (data_base_dir (config (session_state app)))) _ [] W)
    as [h E].
  rewrite E. eexists. reflexivity.
Qed.

End ExportCases.

Lemma export_title_spec (q : str) :
  ((60 < List.length q)%nat -> export_title q = firstn 60 q ++ lit "...") /\
  ((List.length q <= 60)%nat -> export_title q = q).
Proof.
  unfold export_title, len. split; intros H.
  - destruct (Z.gtb_spec (Z.of_nat (List.length q)) 60); [apply f_equal2; reflexivity | lia].
  - destruct (Z.gtb_spec (Z.of_nat (List.length q)) 60); [lia | reflexivity].
Qed.

Section ExportHistory.

Context {platform : Platform}.

Lemma exports_history_of (now_id now_file : datetime) (app : App) (doc : SessionData) :
  exports now_id now_file app doc ->
  history_of (path_name (data_base_dir (config (session_state app))))
    (conversation_log (session_state app)) (history doc).
Proof.
  intros H. destruct (exports_inv _ _ _ _ H) as [turn [rest [h [L [E ->]]]]].
  rewrite L. destruct (export_turns_inv _ _ _ _ E) as [entries [-> Hh]]. exact Hh.
Qed.

End ExportHistory.

(** ** The turn logger *)

Lemma rmap_total {A B} (f : A -> result B) (l : list A) :
  (forall x, In x l -> exists y, f x = Ok y) -> exists ys, rmap f l = Ok ys.
Proof.
  induction l as [|x l IH]; intros H; [now exists []|].
  destruct (H x (or_introl eq_refl)) as [y E].
  destruct IH as [ys E']; [intros z Hz; apply H; now right|].
  exists (y :: ys). cbn [rmap]. now rewrite E, E'.
Qed.

Lemma rmap_ok_map {A B} (f : A -> result B) (g : A -> B) (l : list A) :
  (forall x, In x l -> f x = Ok (g x)) -> rmap f l = Ok (map g l).
Proof.
  induction l as [|x l IH]; intros H; [reflexivity|].
  cbn [rmap map]. rewrite (H x (or_introl eq_refl)), IH; [reflexivity|].
  intros z Hz. apply H. now right.
Qed.

Lemma rmap_ok_inv {A B} (f : A -> result B) (l : list A) (ys : list B) :
  rmap f l = Ok ys -> forall x, In x l -> exists y, f x = Ok y.
Proof.
  revert ys. induction l as [|x l IH]; intros ys H z Hz; [easy|].
  cbn [rmap] in H. destruct (f x) as [y|e] eqn:E; [|discriminate].
  destruct (rmap f l) as [ys'|e] eqn:E'; [|discriminate].
  destruct Hz as [<-|Hz]; [now exists y | exact (IH _ eq_refl z Hz)].
Qed.

Lemma raw_source_of_cases (d : Document) :
  (raw_source_of d = Ok (raw_of d) /\ page_content d <> None /\ metadata d <> None) \/
  (raw_source_of d = Raise AttributeError /\ (page_content d = None \/ metadata d = None)).
Proof.
  destruct d as [[pc|] [md|]]; cbn; auto; left; repeat split; discriminate.
Qed.

Lemma rmap_raw_source_of_missing (l : list Document) :
  (exists d, In d l /\ metadata d = None) ->
  rmap raw_source_of l = Raise AttributeError.
Proof.
  induction l as [|x l IH]; intros [d [Hd M]]; [easy|].
  cbn [rmap]. destruct (raw_source_of_cases x) as [[E [_ Mx]]|[E _]]; rewrite E; [|reflexivity].
  cbn [rbind]. destruct Hd as [->|Hd]; [congruence|].
  rewrite IH; [reflexivity | now exists d].
Qed.

Section Logger.

Context {platform : Platform}.

Lemma document_logged_iff (d : Document) :
  (exists r s, raw_source_of d = Ok r /\ summary_of d = Ok s) <-> well_formed_doc d = true.
Proof.
  unfold raw_source_of, summary_of, well_formed_doc.
  destruct d as [[pc|] [[| | | | |kvs]|]]; cbn [page_content metadata getattr rbind py_get];
    try (split; [intros [? [? [? ?]]]; congruence | congruence]).
  destruct (dict_lookup (lit "source") kvs) as [[| | |p| |]|]; cbn [py_Path rbind];
    try (split; [intros [? [? [? ?]]]; congruence | congruence]);
    (split; [reflexivity | intros _; eauto]).
Qed.

Lemma documents_logged_iff (l : list Document) :
  (exists raws sums, rmap raw_source_of l = Ok raws /\ rmap summary_of l = Ok sums) <->
  forallb well_formed_doc l = true.
Proof.
  rewrite forallb_forall. split.
  - intros [raws [sums [R S]]] d Hd. apply document_logged_iff.
    destruct (rmap_ok_inv _ _ _ R d Hd) as [r Er].
    destruct (rmap_ok_inv _ _ _ S d Hd) as [s Es]. eauto.
  - intros H.
    destruct (rmap_total raw_source_of l) as [raws R].
    { intros d Hd. apply H, document_logged_iff in Hd as [r [_ [E _]]]. eauto. }
    destruct (rmap_total summary_of l) as [sums S].
    { intros d Hd. apply H, document_logged_iff in Hd as [_ [s [_ E]]]. eauto. }
    eauto.
Qed.

Lemma rmap_raw_source_of_ok (l : list Document) (raws : list RawSource) :
  rmap raw_source_of l = Ok raws -> raws = map raw_of l.
Proof.
  intros R. rewrite (rmap_ok_map raw_source_of raw_of l) in R; [congruence|].
  intros d Hd. destruct (rmap_ok_inv _ _ _ R d Hd) as [r E].
  destruct (raw_source_of_cases d) as [[E' _]|[E' _]]; congruence.
Qed.

Lemma num_sources_len {A} (docs : option (list A)) :
  (if nonempty docs then Z.of_nat (List.length (or_empty docs)) else 0) =
  Z.of_nat (List.length (or_empty docs)).
Proof. now destruct docs as [[|x l]|]. Qed.

(** The logger either raises while it builds the turn, with nothing changed,
    or appends the turn it built. *)
Lemma log_conversation_turn_run now q a docs md app :
  log_conversation_turn now q a docs md app =
  match rmap raw_source_of (or_empty docs), rmap summary_of (or_empty docs) with
  | Ok raws, Ok sums =>
      (Ok tt, with_turn app
         {| timestamp := dt_isoformat now; question := q; answer := a;
            num_sources := Z.of_nat (List.length (or_empty docs));
            raw_sources := Some (map raw_of (or_empty docs));
            sources := sums;
            extracted_metadata := if truthy md then Some md else None |})
  | Raise e, _ => (Raise e, app)
  | Ok _, Raise e => (Raise e, app)
  end.
Proof.
  unfold log_conversation_turn, bind, lift.
  destruct (rmap raw_source_of (or_empty docs)) as [raws|e] eqn:R; [|reflexivity].
  destruct (rmap summary_of (or_empty docs)) as [sums|e]; [|reflexivity].
  rewrite num_sources_len, (rmap_raw_source_of_ok _ _ R). reflexivity.
Qed.

Lemma log_conversation_turn_outcome now q a docs md app :
  (exists sums,
     log_conversation_turn now q a docs md app =
     (Ok tt, with_turn app
        {| timestamp := dt_isoformat now; question := q; answer := a;
           num_sources := Z.of_nat (List.length (or_empty docs));
           raw_sources := Some (map raw_of (or_empty docs));
           sources := sums;
           extracted_metadata := if truthy md then Some md else None |}) /\
     forallb well_formed_doc (or_empty docs) = true) \/
  (exists e, log_conversation_turn now q a docs md app = (Raise e, app) /\
             forallb well_formed_doc (or_empty docs) = false).
Proof.
  rewrite log_conversation_turn_run.
  destruct (forallb well_formed_doc (or_empty docs)) eqn:W.
  - apply documents_logged_iff in W as [raws [sums [R S]]]. rewrite R, S. left. eauto.
  - right.
    destruct (rmap raw_source_of (or_empty docs)) as [raws|e] eqn:R; [|eauto].
    destruct (rmap summary_of (or_empty docs)) as [sums|e] eqn:S; [|eauto].
    assert (forallb well_formed_doc (or_empty docs) = true)
      by (apply documents_logged_iff; eauto).
    congruence.
Qed.

End Logger.

(** ** What the page can put in its log *)

Section Reachability.

Context {platform : Platform}.

Lemma keeps_ret {A} (a : A) : keeps_log (ret a).
Proof. intros app. reflexivity. Qed.

Lemma keeps_lift {A} (r : result A) : keeps_log (lift r).
Proof. intros app. reflexivity. Qed.

Lemma keeps_emit (e : UiEvent) : keeps_log (emit e).
Proof. intros app. reflexivity. Qed.

Lemma keeps_append_message (m : Message) : keeps_log (append_message m).
Proof. intros app. reflexivity. Qed.

Lemma keeps_bind {A B} (m : M A) (k : A -> M B) :
  keeps_log m -> (forall a, keeps_log (k a)) -> keeps_log (bind m k).
Proof.
  intros Hm Hk app. unfold bind. specialize (Hm app).
  destruct (m app) as [[a|e] app1]; cbn [snd] in *; [|exact Hm].
  now rewrite (Hk a app1).
Qed.

Lemma keeps_when (b : bool) (m : M unit) : keeps_log m -> keeps_log (when b m).
Proof. destruct b; [easy | intros _; apply keeps_ret]. Qed.

Lemma keeps_for_each {A} (l : list A) (body : A -> M unit) :
  (forall x, keeps_log (body x)) -> keeps_log (for_each l body).
Proof.
  intros H. induction l as [|x l IH]; [apply keeps_ret|].
  apply keeps_bind; [apply H | intros _; exact IH].
Qed.

Lemma keeps_render_source (i : Z) (doc : Document) : keeps_log (render_source i doc).
Proof.
  unfold render_source.
  repeat (apply keeps_bind; [first [apply keeps_lift | apply keeps_emit] | intros ?]).
  apply keeps_emit.
Qed.

(** A step that keeps the log, followed by the rest of the code. *)
Lemma keeps_then {A B} (base : list Turn) (m : M A) (k : A -> M B) (app : App) :
  keeps_log m ->
  conversation_log (session_state app) = base ->
  (forall a app1, m app = (Ok a, app1) ->
                  conversation_log (session_state app1) = base ->
                  logged_at_most_one base (k a app1)) ->
  logged_at_most_one base (bind m k app).
Proof.
  intros Hm Hb Hk. unfold bind. specialize (Hm app).
  destruct (m app) as [[a|e] app1] eqn:E; cbn [snd] in Hm.
  - apply (Hk a app1 eq_refl). congruence.
  - left. cbn [snd]. congruence.
Qed.

(** A document that the sources expander has rendered has a string as text. *)
Lemma render_source_ok (i : Z) (doc : Document) (app : App) :
  fst (render_source i doc app) = Ok tt -> exists s, page_content doc = Some (VStr s).
Proof.
  destruct doc as [pc md].
  cbv [render_source bind lift emit getattr py_get py_Path py_prefix_plus fst
         page_content metadata].
  destruct md as [[| | | | |kvs]|]; try discriminate.
  destruct (dict_lookup (lit "source") kvs) as [[| | |p| |]|]; try discriminate;
    (destruct pc as [[| | |s| |]|]; try discriminate; eauto).
Qed.

Lemma for_each_render_ok (l : list Document) : forall (start : Z) (app : App),
  fst (for_each (enumerate l start) (fun '(i, doc) => render_source i doc) app) = Ok tt ->
  forall d, In d l -> exists s, page_content d = Some (VStr s).
Proof.
  induction l as [|x l IH]; intros start app H d Hd; [easy|].
  cbn [enumerate for_each] in H. unfold bind in H.
  destruct (render_source start x app) as [[[]|e] app1] eqn:E; [|discriminate].
  destruct Hd as [<-|Hd].
  - apply (render_source_ok start x app). now rewrite E.
  - exact (IH _ _ H d Hd).
Qed.

Lemma sources_expander_ok (docs : option (list Document)) (app app' : App) :
  when (nonempty docs)
    (emit (UiSourcesExpander (Z.of_nat (List.length (or_empty docs)))) ;;
     for_each (enumerate (or_empty docs) 1) (fun '(i, doc) => render_source i doc)) app =
  (Ok tt, app') ->
  forall d, In d (or_empty docs) -> exists s, page_content d = Some (VStr s).
Proof.
  destruct docs as [[|x l]|]; cbn [nonempty when or_empty]; try easy.
  unfold bind at 1. cbn [emit]. intros H.
  eapply for_each_render_ok. rewrite H. reflexivity.
Qed.

Lemma raw_of_exportable (d : Document) :
  well_formed_doc d = true -> (exists s, page_content d = Some (VStr s)) ->
  exportable_source (raw_of d) = true.
Proof.
  intros W [s P]. unfold well_formed_doc in W. unfold exportable_source, raw_of.
  cbn [raw_page_content raw_metadata]. rewrite P in *. cbn [key_or is_str].
  now destruct (metadata d) as [[| | | | |kvs]|].
Qed.

Lemma handle_user_input_log (answer_question : Pipeline) (now : datetime) (prompt : str)
    (show_reasoning : bool) (app : App) :
  logged_at_most_one (conversation_log (session_state app))
    (handle_user_input answer_question now prompt show_reasoning app).
Proof.
  unfold handle_user_input.
  apply keeps_then; [apply keeps_append_message | reflexivity | intros _ app0 _ L0].
  apply keeps_then; [apply keeps_emit | assumption | intros _ appa _ La].
  apply keeps_then; [apply keeps_emit | assumption | intros _ appb _ Lb].
  apply keeps_then; [apply keeps_emit | assumption | intros _ appc _ Lc].
  apply keeps_then; [apply keeps_emit | assumption | intros _ app1 _ L1].
  unfold try_except_M.
  assert (X : logged_at_most_one (conversation_log (session_state app))
    ((x <- get_session ;;
      r <- lift (answer_question prompt (config x) show_reasoning) ;;
      let '(answer, docs, reasoning, metadata) := r in
      emit (UiMarkdown answer) ;;
      when (nonempty docs)
        (emit (UiSourcesExpander (Z.of_nat (List.length (or_empty docs)))) ;;
         for_each (enumerate (or_empty docs) 1)
           (fun '(i, doc) => render_source i doc)) ;;
      when (nonblank reasoning && show_reasoning)
        (emit UiReasoningExpander ;;
         emit (UiMarkdown (match reasoning with Some t => t | None => [] end))) ;;
      when (truthy metadata)
        (emit UiMetadataExpander ;; emit (UiJson metadata)) ;;
      append_message
        (AssistantMessage answer docs
           (if nonblank reasoning then reasoning else None)
           (if truthy metadata then Some metadata else None)) ;;
      log_conversation_turn now prompt answer docs metadata ;;
      rerun) app1)).
  { apply keeps_then; [intros ?; reflexivity | assumption | intros x app2 _ L2].
    apply keeps_then; [apply keeps_lift | assumption |].
    intros [[[answer docs] reasoning] md] app3 _ L3.
    apply keeps_then; [apply keeps_emit | assumption | intros _ app4 _ L4].
    apply keeps_then; [|assumption|intros [] app5 R L5].
    { apply keeps_when, keeps_bind; [apply keeps_emit|]. intros _.
      apply keeps_for_each. intros [i doc]. apply keeps_render_source. }
    pose proof (sources_expander_ok _ _ _ R) as S.
    apply keeps_then; [|assumption|intros _ app6 _ L6].
    { apply keeps_when, keeps_bind; [apply keeps_emit | intros _; apply keeps_emit]. }
    apply keeps_then; [|assumption|intros _ app7 _ L7].
    { apply keeps_when, keeps_bind; [apply keeps_emit | intros _; apply keeps_emit]. }
    apply keeps_then; [apply keeps_append_message | assumption | intros _ app8 _ L8].
    unfold bind.
    destruct (log_conversation_turn_outcome now prompt answer docs md app8)
      as [[sums [E W]]|[e [E _]]]; rewrite E.
    - right. eexists. cbn [rerun raise snd with_turn session_state conversation_log].
      rewrite L8. split; [reflexivity|]. cbn [raw_sources or_empty].
      rewrite forallb_forall in *. intros r Hr. apply in_map_iff in Hr as [d [<- Hd]].
      apply raw_of_exportable; [exact (W d Hd) | exact (S d Hd)].
    - left. exact L8. }
  match type of X with
  | logged_at_most_one _ (?m app1) => destruct (m app1) as [[[]|e] app2]
  end; [exact X|].
  destruct (is_Exception e); exact X.
Qed.

Lemma exportable_log_app (log : list Turn) (turn : Turn) :
  exportable_log log = true ->
  forallb exportable_source (or_empty (raw_sources turn)) = true ->
  exportable_log (log ++ [turn]) = true.
Proof.
  unfold exportable_log. intros H1 H2. rewrite forallb_app, H1. cbn [forallb].
  now rewrite H2.
Qed.

(** Every log that the page builds can be exported. *)
Lemma reachable_exportable (app : App) :
  reachable app -> exportable_log (conversation_log (session_state app)) = true.
Proof.
  induction 1 as [cfg|app pipeline now prompt show _ IH|app n1 n2 _ IH|app _ IH
                 |app cfg _ IH|app _ IH].
  - reflexivity.
  - destruct (handle_user_input_log pipeline now prompt show app) as [E|[turn [E G]]];
      rewrite E; [exact IH | now apply exportable_log_app].
  - destruct (conversation_log (session_state app)) as [|turn rest] eqn:L.
    + now rewrite (export_conversation_empty _ _ _ L); cbn; rewrite L.
    + rewrite (export_conversation_turns _ _ _ _ _ L).
      destruct (export_turns _ _ _); cbn [snd session_state]; now rewrite L.
  - reflexivity.
  - exact IH.
  - exact IH.
Qed.

(** So an export of a session that holds a conversation always offers a
    document. *)
Lemma reachable_exports (now_id now_file : datetime) (app : App) :
  reachable app -> conversation_log (session_state app) <> [] ->
  exists doc, exports now_id now_file app doc.
Proof.
  intros R NE. pose proof (reachable_exportable app R) as W.
  destruct (conversation_log (session_state app)) as [|turn rest] eqn:L; [easy|].
  exact (exports_intro _ _ _ _ _ L W).
Qed.

End Reachability.

(** ** The claims of the specification *)

Section Claims.

Context {platform : Platform}.

(** C1. During an export, the id stored for a document is computed from the
    ['source'] entry of its metadata (["unknown_source"] when the entry is
    absent): with every backslash turned into a slash, the id is the part of
    the path from the first occurrence of the data root's name followed by a
    slash; without such an occurrence, and when the entry is not a string at
    all (the replacement fails and the failure is caught), the id is the
    original value. The data root's name is the final component of the
    configured [data_base_dir]. *)
Theorem C1_canonical_source_id (now_id now_file : datetime) (app : App)
    (doc : SessionData) (k i : nat) (turn : Turn) (src : RawSource) :
  exports now_id now_file app doc ->
  nth_error (conversation_log (session_state app)) k = Some turn ->
  nth_error (or_empty (raw_sources turn)) i = Some src ->
  let data_root_name := path_name (data_base_dir (config (session_state app))) in
  (exists kvs cs sids sid,
     key_or (raw_metadata src) (VDict []) = VDict kvs /\
     nth_error (history doc) (2 * k + 1) =
       Some (AssistantEntry (answer turn) cs sids (lit "")) /\
     nth_error sids i = Some sid /\
     let original := key_or (dict_lookup (lit "source") kvs) (VStr (lit "unknown_source")) in
     match original with
     | VStr s =>
         (exists j, first_occurrence (data_root_name ++ lit "/") (slashes s) j /\
                    sid = VStr (skipn j (slashes s))) \/
         (no_occurrence (data_root_name ++ lit "/") (slashes s) /\ sid = original)
     | _ => sid = original
     end) /\
  canonical_source_id (lit "Contest_Data")
    (VStr (lit "/home/x/Contest_Data/italy_codes/civil_code.pdf")) =
  Ok (VStr (lit "Contest_Data/italy_codes/civil_code.pdf")).
Proof.
  intros H Hk Hi root. split; [|reflexivity].
  destruct (history_of_turn _ _ _ (exports_history_of _ _ _ _ H) k turn Hk)
    as [cs [sids [_ [V A]]]].
  destruct (aligned_nth _ _ _ _ A i src Hi) as [c [sid [_ [S X]]]].
  destruct X as [text [kvs [_ [_ [_ [M E]]]]]].
  exists kvs, cs, sids, sid. repeat split; try assumption.
  fold root in E. cbv zeta.
  destruct (key_or (dict_lookup (lit "source") kvs) (VStr (lit "unknown_source")))
    as [| | |s| |] eqn:O; try (cbn in E; congruence).
  destruct (canonical_source_id_str root s) as [[j [F R]]|[N R]];
    rewrite R in E; injection E as <-.
  - left. now exists j.
  - right. now split.
Qed.

(** C2. In an exported history, every assistant entry is the entry of a turn
    of the log; its [contexts] and [source_ids] are as long as each other and
    as the turn's raw documents, and at every index they hold the trimmed
    text and the canonical id of the raw document at that index. *)
Theorem C2_contexts_source_ids_aligned (now_id now_file : datetime) (app : App)
    (doc : SessionData) (j : nat) (c : str) (cs : list str) (sids : list pyval)
    (g : str) :
  exports now_id now_file app doc ->
  nth_error (history doc) j = Some (AssistantEntry c cs sids g) ->
  List.length cs = List.length sids /\
  exists k turn,
    j = (2 * k + 1)%nat /\
    nth_error (conversation_log (session_state app)) k = Some turn /\
    List.length cs = List.length (or_empty (raw_sources turn)) /\
    forall i src, nth_error (or_empty (raw_sources turn)) i = Some src ->
      exists text sid,
        nth_error cs i = Some text /\ nth_error sids i = Some sid /\
        exported_as (path_name (data_base_dir (config (session_state app))))
          src text sid.
Proof.
  intros H Hj.
  destruct (history_of_entry _ _ _ (exports_history_of _ _ _ _ H) j _ Hj)
    as [k [turn [Hk [[_ D]|[-> [cs' [sids' [D A]]]]]]]]; [discriminate|].
  injection D as -> -> -> ->.
  destruct (aligned_length _ _ _ _ A) as [L1 L2].
  split; [congruence|]. exists k, turn. repeat split; try assumption.
  intros i src Hi. exact (aligned_nth _ _ _ _ A i src Hi).
Qed.


(** C4 (as the page does it). An export on an empty log ends normally: it
    shows the warning "No conversation to export" in the sidebar, leaves the
    session as it was, and offers no document. *)
Theorem C4_empty_log_warns (now_id now_file : datetime) (app : App) :
  conversation_log (session_state app) = [] ->
  export_conversation now_id now_file app =
    (Ok tt, {| session_state := session_state app;
               screen := screen app ++
                 [UiSidebarWarning (lit "No conversation to export")] |}) /\
  forall doc, ~ exports now_id now_file app doc.
Proof.
  intros L. split.
  - exact (export_conversation_empty _ _ _ L).
  - intros doc H. destruct (exports_inv _ _ _ _ H) as [turn [rest [h [L' _]]]].
    congruence.
Qed.

(** C5. When the pipeline raises, the exchange appends no turn: the log
    after [handle_user_input] is the log before it. An [Exception] is caught
    and shown as an error and the call ends normally; anything else leaves
    the call as it came. *)
Theorem C5_failed_exchange_not_logged (answer_question : Pipeline) (now : datetime)
    (prompt : str) (show_reasoning : bool) (app : App) (e : exn) :
  answer_question prompt (config (session_state app)) show_reasoning = Raise e ->
  conversation_log (session_state (snd (handle_user_input answer_question now prompt
                                          show_reasoning app))) =
    conversation_log (session_state app) /\
  fst (handle_user_input answer_question now prompt show_reasoning app) =
    (if is_Exception e then Ok tt else Raise e) /\
  (is_Exception e = true ->
   In (UiError e) (screen (snd (handle_user_input answer_question now prompt
                                  show_reasoning app)))).
Proof.
  intros H.
  destruct app as [[cfg msgs log] scr]. cbn [session_state config] in H.
  cbv [handle_user_input try_except_M bind append_message emit get_session
         put_session lift session_state config messages conversation_log screen].
  rewrite H. destruct (is_Exception e); cbn [fst snd session_state conversation_log screen].
  - repeat split. intros _. apply in_or_app. right. now left.
  - repeat split. discriminate.
Qed.

(** C6 (as the page does it). The logger raises no error exactly when every
    document has both attributes, a mapping as metadata and, under
    ['source'], a string or nothing. It puts no default in the place of a
    missing metadata: with such a document the call raises [AttributeError]
    and the session stays as it was. *)
Theorem C6_logger_raises_on_malformed (now : datetime) (q a : str)
    (docs : option (list Document)) (md : pyval) (app : App) :
  (fst (log_conversation_turn now q a docs md app) = Ok tt <->
   forallb well_formed_doc (or_empty docs) = true) /\
  ((exists d, In d (or_empty docs) /\ metadata d = None) ->
   log_conversation_turn now q a docs md app = (Raise AttributeError, app)).
Proof.
  split.
  - destruct (log_conversation_turn_outcome now q a docs md app)
      as [[sums [E W]]|[e [E W]]]; rewrite E, W; cbn [fst]; split; congruence.
  - intros H. rewrite log_conversation_turn_run.
    now rewrite (rmap_raw_source_of_missing _ H).
Qed.



(** C9. Two exports of the same log content with the same data root name,
    at any clock readings and whatever else the two sessions hold, end the
    same way; when the first offers a document so does the second, with the
    same title and the same history. The ids are the two clock readings. *)
Theorem C9_export_deterministic (now1 now1' now2 now2' : datetime) (app1 app2 : App) :
  conversation_log (session_state app1) = conversation_log (session_state app2) ->
  path_name (data_base_dir (config (session_state app1))) =
    path_name (data_base_dir (config (session_state app2))) ->
  fst (export_conversation now1 now1' app1) = fst (export_conversation now2 now2' app2) /\
  forall doc1, exports now1 now1' app1 doc1 ->
    exists doc2, exports now2 now2' app2 doc2 /\
      title doc1 = title doc2 /\ history doc1 = history doc2 /\
      id doc1 = dt_timestamp now1 /\ id doc2 = dt_timestamp now2.
Proof.
  intros L R. split.
  - destruct (conversation_log (session_state app2)) as [|turn rest] eqn:L2.
    + now rewrite (export_conversation_empty _ _ _ L), (export_conversation_empty _ _ _ L2).
    + rewrite (export_conversation_turns _ _ _ _ _ L), (export_conversation_turns _ _ _ _ _ L2).
      rewrite R. now destruct (export_turns _ _ _).
  - intros doc1 H. destruct (exports_inv _ _ _ _ H) as [turn [rest [h [L1 [E ->]]]]].
    assert (L2 : conversation_log (session_state app2) = turn :: rest) by congruence.
    exists {| id := dt_timestamp now2; title := export_title (question turn); history := h |}.
    split; [|now repeat split].
    unfold exports. rewrite (export_conversation_turns _ _ _ _ _ L2), <- R, E. reflexivity.
Qed.

(** C10. The turn that a call of the logger appends has the key
    ["extracted_metadata"] exactly when the metadata argument is truthy, and
    then holds that argument; [None] and the empty mapping leave the turn
    without the key. *)
Theorem C10_extracted_metadata_iff_truthy (now : datetime) (q a : str)
    (docs : option (list Document)) (md : pyval) (app app' : App) :
  log_conversation_turn now q a docs md app = (Ok tt, app') ->
  exists turn,
    conversation_log (session_state app') =
      conversation_log (session_state app) ++ [turn] /\
    (extracted_metadata turn <> None <-> truthy md = true) /\
    (truthy md = true -> extracted_metadata turn = Some md) /\
    (md = VNone \/ md = VDict [] -> extracted_metadata turn = None).
Proof.
  intros H.
  destruct (log_conversation_turn_outcome now q a docs md app)
    as [[sums [E _]]|[e [E _]]]; rewrite E in H; [|discriminate].
  injection H as <-. eexists. split; [reflexivity|]. cbn [extracted_metadata].
  split; [|split].
  - destruct (truthy md); split; congruence.
  - now intros ->.
  - now intros [->| ->].
Qed.

End Claims.

(** ** Worked examples on a POSIX platform *)

Section Examples.

#[local] Existing Instance posix.

Lemma C1_canonical_source_id_witness :
  exports Sample.later Sample.later Sample.one_exchange Sample.session /\
  nth_error (conversation_log (session_state Sample.one_exchange)) 0 = Some Sample.turn /\
  nth_error (or_empty (raw_sources Sample.turn)) 1 = Some (raw_of Sample.ruling) /\
  exists kvs cs sids sid,
    key_or (raw_metadata (raw_of Sample.ruling)) (VDict []) = VDict kvs /\
    nth_error (history Sample.session) 1 =
      Some (AssistantEntry (answer Sample.turn) cs sids (lit "")) /\
    nth_error sids 1 = Some sid /\
    match key_or (dict_lookup (lit "source") kvs) (VStr (lit "unknown_source")) with
    | VStr s =>
        (exists j, first_occurrence (lit "Contest_Data" ++ lit "/") (slashes s) j /\
                   sid = VStr (skipn j (slashes s))) \/
        (no_occurrence (lit "Contest_Data" ++ lit "/") (slashes s) /\
         sid = key_or (dict_lookup (lit "source") kvs) (VStr (lit "unknown_source")))
    | _ => sid = key_or (dict_lookup (lit "source") kvs) (VStr (lit "unknown_source"))
    end.
Proof.
  assert (H1 : exports Sample.later Sample.later Sample.one_exchange Sample.session)
    by (vm_compute; reflexivity).
  assert (H2 : nth_error (conversation_log (session_state Sample.one_exchange)) 0 =
               Some Sample.turn) by (vm_compute; reflexivity).
  assert (H3 : nth_error (or_empty (raw_sources Sample.turn)) 1 =
               Some (raw_of Sample.ruling)) by reflexivity.
  exact (conj H1 (conj H2 (conj H3
           (proj1 (C1_canonical_source_id Sample.later Sample.later Sample.one_exchange
                     Sample.session 0 1 Sample.turn (raw_of Sample.ruling) H1 H2 H3))))).
Defined.

Lemma C2_contexts_source_ids_aligned_witness :
  exports Sample.later Sample.later Sample.one_exchange Sample.session /\
  nth_error (history Sample.session) 1 =
    Some (AssistantEntry Sample.reply Sample.contexts Sample.source_ids (lit "")) /\
  List.length Sample.contexts = List.length Sample.source_ids /\
  exists k turn,
    1%nat = (2 * k + 1)%nat /\
    nth_error (conversation_log (session_state Sample.one_exchange)) k = Some turn /\
    List.length Sample.contexts = List.length (or_empty (raw_sources turn)) /\
    forall i src, nth_error (or_empty (raw_sources turn)) i = Some src ->
      exists text sid,
        nth_error Sample.contexts i = Some text /\
        nth_error Sample.source_ids i = Some sid /\
        exported_as
          (path_name (data_base_dir (config (session_state Sample.one_exchange))))
          src text sid.
Proof.
  assert (H1 : exports Sample.later Sample.later Sample.one_exchange Sample.session)
    by (vm_compute; reflexivity).
  assert (H2 : nth_error (history Sample.session) 1 =
               Some (AssistantEntry Sample.reply Sample.contexts Sample.source_ids (lit "")))
    by reflexivity.
  exact (conj H1 (conj H2
           (C2_contexts_source_ids_aligned Sample.later Sample.later Sample.one_exchange
              Sample.session 1 Sample.reply Sample.contexts Sample.source_ids (lit "")
              H1 H2))).
Defined.


(** C4, as stated, fails on the fresh session: its log is empty and the
    export ends normally instead of raising. *)
Lemma C4_counterexample :
  conversation_log (session_state Sample.fresh) = [] /\
  fst (export_conversation Sample.noon Sample.later Sample.fresh) = Ok tt /\
  ~ exists e, fst (export_conversation Sample.noon Sample.later Sample.fresh) = Raise e.
Proof.
  split; [reflexivity|]. split; [reflexivity|]. intros [e H]. discriminate H.
Qed.

Lemma C4_empty_log_warns_witness :
  conversation_log (session_state Sample.fresh) = [] /\
  export_conversation Sample.noon Sample.later Sample.fresh =
    (Ok tt, {| session_state := session_state Sample.fresh;
               screen := [UiSidebarWarning (lit "No conversation to export")] |}) /\
  forall doc, ~ exports Sample.noon Sample.later Sample.fresh doc.
Proof.
  assert (H : conversation_log (session_state Sample.fresh) = []) by reflexivity.
  exact (conj H (C4_empty_log_warns Sample.noon Sample.later Sample.fresh H)).
Defined.

Lemma C5_failed_exchange_not_logged_witness :
  Sample.failing Sample.asked (config (session_state Sample.one_exchange)) true =
    Raise (PipelineFailure (lit "upstream timeout")) /\
  conversation_log (session_state (snd (handle_user_input Sample.failing Sample.later
                                          Sample.asked true Sample.one_exchange))) =
    conversation_log (session_state Sample.one_exchange) /\
  fst (handle_user_input Sample.failing Sample.later Sample.asked true
         Sample.one_exchange) = Ok tt.
Proof.
  assert (H : Sample.failing Sample.asked (config (session_state Sample.one_exchange)) true =
              Raise (PipelineFailure (lit "upstream timeout"))) by reflexivity.
  destruct (C5_failed_exchange_not_logged Sample.failing Sample.later Sample.asked true
              Sample.one_exchange _ H) as [L [R _]].
  exact (conj H (conj L R)).
Defined.

(** C6, as stated, fails on a document without metadata: the call raises
    and logs nothing, where the claim has it logged with an empty mapping. *)
Lemma C6_counterexample :
  log_conversation_turn Sample.noon Sample.asked Sample.reply (Some [Sample.bare]) VNone
    Sample.fresh = (Raise AttributeError, Sample.fresh) /\
  ~ exists app', log_conversation_turn Sample.noon Sample.asked Sample.reply
                   (Some [Sample.bare]) VNone Sample.fresh = (Ok tt, app').
Proof.
  split; [reflexivity|]. intros [app' H]. discriminate H.
Qed.

Lemma C6_logger_raises_on_malformed_witness :
  forallb well_formed_doc (or_empty (Some [Sample.civil_code; Sample.ruling])) = true /\
  fst (log_conversation_turn Sample.noon Sample.asked Sample.reply
         (Some [Sample.civil_code; Sample.ruling]) VNone Sample.fresh) = Ok tt /\
  (exists d, In d (or_empty (Some [Sample.civil_code; Sample.bare])) /\ metadata d = None) /\
  log_conversation_turn Sample.noon Sample.asked Sample.reply
    (Some [Sample.civil_code; Sample.bare]) VNone Sample.fresh =
  (Raise AttributeError, Sample.fresh).
Proof.
  assert (H1 : forallb well_formed_doc (or_empty (Some [Sample.civil_code; Sample.ruling])) =
               true) by reflexivity.
  assert (H2 : exists d, In d (or_empty (Some [Sample.civil_code; Sample.bare])) /\
                         metadata d = None).
  { exists Sample.bare. split; [right; left; reflexivity | reflexivity]. }
  split; [exact H1|]. split.
  - exact (proj2 (proj1 (C6_logger_raises_on_malformed Sample.noon Sample.asked Sample.reply
                           (Some [Sample.civil_code; Sample.ruling]) VNone Sample.fresh)) H1).
  - split; [exact H2|].
    exact (proj2 (C6_logger_raises_on_malformed Sample.noon Sample.asked Sample.reply
                    (Some [Sample.civil_code; Sample.bare]) VNone Sample.fresh) H2).
Defined.



Lemma C9_export_deterministic_witness :
  conversation_log (session_state Sample.one_exchange) =
    conversation_log (session_state Sample.elsewhere) /\
  path_name (data_base_dir (config (session_state Sample.one_exchange))) =
    path_name (data_base_dir (config (session_state Sample.elsewhere))) /\
  exports Sample.later Sample.later Sample.one_exchange Sample.session /\
  exists doc2, exports Sample.noon Sample.noon Sample.elsewhere doc2 /\
    title Sample.session = title doc2 /\ history Sample.session = history doc2 /\
    id Sample.session = dt_timestamp Sample.later /\ id doc2 = dt_timestamp Sample.noon.
Proof.
  assert (H1 : conversation_log (session_state Sample.one_exchange) =
               conversation_log (session_state Sample.elsewhere))
    by (vm_compute; reflexivity).
  assert (H2 : path_name (data_base_dir (config (session_state Sample.one_exchange))) =
               path_name (data_base_dir (config (session_state Sample.elsewhere))))
    by (vm_compute; reflexivity).
  assert (H3 : exports Sample.later Sample.later Sample.one_exchange Sample.session)
    by (vm_compute; reflexivity).
  exact (conj H1 (conj H2 (conj H3
           (proj2 (C9_export_deterministic Sample.later Sample.later Sample.noon Sample.noon
                     Sample.one_exchange Sample.elsewhere H1 H2) Sample.session H3)))).
Defined.

Lemma C10_extracted_metadata_iff_truthy_witness :
  log_conversation_turn Sample.noon Sample.asked Sample.reply (Some [Sample.civil_code])
    (VDict []) Sample.fresh =
  (Ok tt, snd (log_conversation_turn Sample.noon Sample.asked Sample.reply
                 (Some [Sample.civil_code]) (VDict []) Sample.fresh)) /\
  exists turn,
    conversation_log (session_state
      (snd (log_conversation_turn Sample.noon Sample.asked Sample.reply
              (Some [Sample.civil_code]) (VDict []) Sample.fresh))) = [turn] /\
    extracted_metadata turn = None.
Proof.
  assert (H : log_conversation_turn Sample.noon Sample.asked Sample.reply
                (Some [Sample.civil_code]) (VDict []) Sample.fresh =
              (Ok tt, snd (log_conversation_turn Sample.noon Sample.asked Sample.reply
                             (Some [Sample.civil_code]) (VDict []) Sample.fresh)))
    by reflexivity.
  split; [exact H|].
  destruct (C10_extracted_metadata_iff_truthy _ _ _ _ _ _ _ H) as [turn [L [_ [_ N]]]].
  exists turn. split; [exact L | exact (N (or_intror eq_refl))].
Defined.

End Examples.

(** * Further properties of the page *)

(** ** More on the canonical source id *)

Lemma slashes_idempotent (s : str) : slashes (slashes s) = slashes s.
Proof.
  unfold slashes. rewrite map_map. apply map_ext. intros c.
  destruct (N.eqb_spec c 92); [reflexivity|].
  destruct (N.eqb_spec c 92); [contradiction | reflexivity].
Qed.

Lemma slashes_skipn (k : nat) (s : str) : slashes (skipn k s) = skipn k (slashes s).
Proof. unfold slashes. symmetry. apply skipn_map. Qed.

Lemma slashes_no_backslash (s : str) : ~ In 92%N (slashes s).
Proof.
  unfold slashes. intros H. apply in_map_iff in H as [c [E _]].
  destruct (N.eqb_spec c 92); [discriminate | contradiction].
Qed.

Lemma find_at_start (s sub : str) : startswith sub s = true -> find s sub = 0.
Proof. unfold find. intros H. destruct s; cbn [find_at]; now rewrite H. Qed.

Lemma first_occurrence_unique (sub s : str) (j k : nat) :
  first_occurrence sub s j -> first_occurrence sub s k -> j = k.
Proof.
  intros [_ [Oj Mj]] [_ [Ok Mk]].
  destruct (Nat.lt_trichotomy j k) as [L|[E|L]]; [|exact E|].
  - now destruct (Mk j L).
  - now destruct (Mj k L).
Qed.

(** The id of a path in which the root was found, once more through the
    computation, comes back as it is. *)
Lemma canonical_source_id_found_fixed (BASE : str) (s : str) (k : nat) :
  occurs_at (BASE ++ lit "/") (slashes s) k ->
  canonical_source_id BASE (VStr (skipn k (slashes s))) =
  Ok (VStr (skipn k (slashes s))).
Proof.
  intros O. unfold canonical_source_id. cbn [py_replace rbind].
  change (replace_char 92%N 47%N (skipn k (slashes s)))
    with (slashes (skipn k (slashes s))).
  rewrite slashes_skipn, slashes_idempotent.
  rewrite (find_at_start _ _ (proj2 (startswith_occurs _ _ _) O)).
  reflexivity.
Qed.

Lemma export_source_raises (BASE : str) (src : RawSource) ctx ids (e : exn) :
  export_source BASE src ctx ids = Raise e -> e = AttributeError.
Proof.
  unfold export_source.
  destruct (key_or (raw_page_content src) (VStr (lit ""))) as [| | |text| |];
    cbn [py_strip rbind]; try congruence.
  destruct (key_or (raw_metadata src) (VDict [])) as [| | | | |kvs];
    cbn [py_get rbind]; try congruence.
  destruct (canonical_source_id_total BASE
              (key_or (dict_lookup (lit "source") kvs) (VStr (lit "unknown_source"))))
    as [sid E].
  unfold key_or at 1 in E. rewrite E. discriminate.
Qed.

Lemma export_sources_raises (BASE : str) : forall srcs ctx ids (e : exn),
  export_sources BASE srcs ctx ids = Raise e -> e = AttributeError.
Proof.
  induction srcs as [|src srcs IH]; intros ctx ids e H; [discriminate|].
  cbn [export_sources] in H.
  destruct (export_source BASE src ctx ids) as [[ctx1 ids1]|e1] eqn:E; cbn [rbind] in H.
  - exact (IH _ _ _ H).
  - injection H as <-. exact (export_source_raises _ _ _ _ _ E).
Qed.

Lemma export_turns_raises (BASE : str) : forall log h (e : exn),
  export_turns BASE log h = Raise e -> e = AttributeError.
Proof.
  induction log as [|turn log IH]; intros h e H; [discriminate|].
  cbn [export_turns] in H.
  destruct (raw_sources turn) as [srcs|].
  - destruct (export_sources BASE srcs [] []) as [[cs sids]|e1] eqn:E; cbn [rbind] in H.
    + exact (IH _ _ H).
    + injection H as <-. exact (export_sources_raises _ _ _ _ _ E).
  - cbn [rbind] in H. exact (IH _ _ H).
Qed.

(** The history of a log is built turn by turn: what is already in
    [history] stays in front. *)
Lemma export_turns_from (BASE : str) : forall log h0,
  export_turns BASE log h0 =
  rbind (export_turns BASE log []) (fun h => Ok (h0 ++ h)).
Proof.
  induction log as [|turn log IH]; intros h0; cbn [export_turns rbind].
  - now rewrite app_nil_r.
  - destruct (match raw_sources turn with
              | Some srcs => export_sources BASE srcs [] []
              | None => Ok ([], [])
              end) as [[cs sids]|e]; cbn [rbind]; [|reflexivity].
    rewrite (IH ((h0 ++ _) ++ _)).
    match goal with
    | |- _ = rbind (export_turns BASE log ?h1) _ => rewrite (IH h1)
    end.
    destruct (export_turns BASE log []) as [h|e]; cbn [rbind]; [|reflexivity].
    cbn [app]. now rewrite <- !app_assoc.
Qed.

Lemma export_turns_app (BASE : str) : forall log more,
  export_turns BASE (log ++ more) [] =
  rbind (export_turns BASE log [])
        (fun h => rbind (export_turns BASE more []) (fun h' => Ok (h ++ h'))).
Proof.
  induction log as [|turn log IH]; intros more.
  - cbn [app export_turns rbind]. now destruct (export_turns BASE more []).
  - cbn [app export_turns].
    destruct (match raw_sources turn with
              | Some srcs => export_sources BASE srcs [] []
              | None => Ok ([], [])
              end) as [[cs sids]|e]; cbn [rbind]; [|reflexivity].
    rewrite (export_turns_from BASE (log ++ more)), (export_turns_from BASE log), IH.
    destruct (export_turns BASE log []) as [h|e]; cbn [rbind]; [|reflexivity].
    destruct (export_turns BASE more []) as [h'|e]; cbn [rbind]; [|reflexivity].
    now rewrite <- !app_assoc.
Qed.

Lemma export_title_length (q : str) : (List.length (export_title q) <= 63)%nat.
Proof.
  unfold export_title, len.
  destruct (Z.gtb_spec (Z.of_nat (List.length q)) 60); [|lia].
  rewrite length_app. change (slice_to q 60) with (firstn 60 q).
  rewrite length_firstn. change (List.length (lit "...")) with 3%nat. lia.
Qed.

Lemma export_title_prefix (q : str) : firstn 60 (export_title q) = firstn 60 q.
Proof.
  unfold export_title, len.
  destruct (Z.gtb_spec (Z.of_nat (List.length q)) 60); [|reflexivity].
  change (slice_to q 60) with (firstn 60 q).
  rewrite firstn_app, firstn_firstn, length_firstn.
  replace (60 - Nat.min 60 (List.length q))%nat with 0%nat by lia.
  cbn [firstn Nat.min]. now rewrite app_nil_r.
Qed.

Section ExportProperties.

Context {platform : Platform}.


(** X2. The export grows with the log: when a log has got more turns, its
    export has the same title, and its history is the earlier history
    followed by two entries for each new turn. *)
Theorem X2_export_extends (now1 now1' now2 now2' : datetime) (app1 app2 : App)
    (doc1 doc2 : SessionData) (more : list Turn) :
  exports now1 now1' app1 doc1 ->
  exports now2 now2' app2 doc2 ->
  conversation_log (session_state app2) = conversation_log (session_state app1) ++ more ->
  path_name (data_base_dir (config (session_state app1))) =
    path_name (data_base_dir (config (session_state app2))) ->
  title doc2 = title doc1 /\
  exists tail, history doc2 = history doc1 ++ tail /\
               List.length tail = (2 * List.length more)%nat.
Proof.
  intros H1 H2 L R.
  destruct (exports_inv _ _ _ _ H1) as [t1 [r1 [h1 [L1 [E1 ->]]]]].
  destruct (exports_inv _ _ _ _ H2) as [t2 [r2 [h2 [L2 [E2 ->]]]]].
  rewrite L1 in L. rewrite L2 in L. cbn [app] in L. injection L as -> ->.
  cbn [title history]. split; [reflexivity|].
  rewrite <- R in E2. change (t1 :: r1 ++ more) with ((t1 :: r1) ++ more) in E2.
  rewrite export_turns_app, E1 in E2. cbn [rbind] in E2.
  destruct (export_turns _ more []) as [tail|e] eqn:E; [|discriminate].
  injection E2 as <-. exists tail. split; [reflexivity|].
  destruct (export_turns_inv _ _ _ _ E) as [entries [-> Hh]].
  exact (history_of_length _ _ _ Hh).
Qed.

(** X6. The title of an export has at most 63 characters, and its first 60
    are the first 60 of the first question. *)
Theorem X6_title_bound (now_id now_file : datetime) (app : App) (doc : SessionData) :
  exports now_id now_file app doc ->
  (List.length (title doc) <= 63)%nat /\
  exists turn rest,
    conversation_log (session_state app) = turn :: rest /\
    firstn 60 (title doc) = firstn 60 (question turn).
Proof.
  intros H. destruct (exports_inv _ _ _ _ H) as [turn [rest [h [L [_ ->]]]]].
  cbn [title]. split; [apply export_title_length|].
  exists turn, rest. split; [exact L | apply export_title_prefix].
Qed.

End ExportProperties.

(** X3. Computing the id of an id changes nothing: what the export stores
    as a source id is a fixed point of the computation. *)
Theorem X3_canonical_id_idempotent (BASE : str) (v : pyval) :
  exists w, canonical_source_id BASE v = Ok w /\ canonical_source_id BASE w = Ok w.
Proof.
  destruct v as [| | |s| |]; try (eexists; split; reflexivity).
  destruct (canonical_source_id_str BASE s) as [[k [[_ [O _]] E]]|[_ E]].
  - exists (VStr (skipn k (slashes s))). split; [exact E|].
    exact (canonical_source_id_found_fixed BASE s k O).
  - exists (VStr s). now split.
Qed.

(** X4. The id of a source string is a string that is not longer than the
    source. It is the source itself, or it begins with the root name and a
    slash, holds no backslash, and is an end part of the path with its
    backslashes turned into slashes. *)
Theorem X4_canonical_id_shape (BASE : str) (s : str) :
  exists r,
    canonical_source_id BASE (VStr s) = Ok (VStr r) /\
    (List.length r <= List.length s)%nat /\
    (r = s \/
     (startswith (BASE ++ lit "/") r = true /\ ~ In 92%N r /\
      exists pre, slashes s = pre ++ r)).
Proof.
  destruct (canonical_source_id_str BASE s) as [[k [[_ [O _]] E]]|[_ E]].
  - exists (skipn k (slashes s)). split; [exact E|]. split.
    + rewrite length_skipn. unfold slashes. rewrite length_map. apply Nat.le_sub_l.
    + right. split; [now apply startswith_occurs|]. split.
      * intros H. apply (slashes_no_backslash s).
        rewrite <- (firstn_skipn k (slashes s)). apply in_or_app. now right.
      * exists (firstn k (slashes s)). symmetry. apply firstn_skipn.
  - exists s. split; [exact E|]. split; [lia | now left].
Qed.

(** X5. Two spellings of a path that differ only in the separators have the
    same id when the root is found in the path. When it is not found each
    keeps its own spelling, backslashes included. *)
Theorem X5_canonical_id_separators (BASE : str) (s1 s2 : str) :
  slashes s1 = slashes s2 ->
  canonical_source_id BASE (VStr s1) = canonical_source_id BASE (VStr s2) \/
  (no_occurrence (BASE ++ lit "/") (slashes s1) /\
   canonical_source_id BASE (VStr s1) = Ok (VStr s1) /\
   canonical_source_id BASE (VStr s2) = Ok (VStr s2)).
Proof.
  intros S.
  destruct (canonical_source_id_str BASE s1) as [[k1 [F1 E1]]|[N1 E1]];
    destruct (canonical_source_id_str BASE s2) as [[k2 [F2 E2]]|[N2 E2]].
  - left. rewrite <- S in F2, E2.
    rewrite (first_occurrence_unique _ _ _ _ F1 F2) in E1. congruence.
  - rewrite <- S in N2. destruct F1 as [L1 [O1 _]]. now destruct (N2 k1 L1).
  - rewrite S in N1. destruct F2 as [L2 [O2 _]]. now destruct (N1 k2 L2).
  - right. now repeat split.
Qed.

Section ExportExamples.

#[local] Existing Instance posix.

Lemma X2_export_extends_witness :
  exists doc2,
    exports Sample.later Sample.later Sample.one_exchange Sample.session /\
    exports Sample.noon Sample.noon Scenario.two_exchanges doc2 /\
    title doc2 = title Sample.session /\
    exists tail, history doc2 = history Sample.session ++ tail /\
                 List.length tail = 2%nat.
Proof.
  assert (H1 : exports Sample.later Sample.later Sample.one_exchange Sample.session)
    by (vm_compute; reflexivity).
  assert (R : reachable Scenario.two_exchanges)
    by exact (reach_input _ Sample.answering Sample.later Scenario.follow_up true
                (reach_input _ Sample.answering Sample.noon Sample.asked false
                   (reach_init Sample.cfg))).
  assert (NE : conversation_log (session_state Scenario.two_exchanges) <> [])
    by (vm_compute; discriminate).
  destruct (reachable_exports Sample.noon Sample.noon Scenario.two_exchanges R NE)
    as [doc2 H2].
  assert (L : conversation_log (session_state Scenario.two_exchanges) =
              conversation_log (session_state Sample.one_exchange) ++
              skipn 1 (conversation_log (session_state Scenario.two_exchanges)))
    by (vm_compute; reflexivity).
  assert (P : path_name (data_base_dir (config (session_state Sample.one_exchange))) =
              path_name (data_base_dir (config (session_state Scenario.two_exchanges))))
    by (vm_compute; reflexivity).
  exists doc2. split; [exact H1|]. split; [exact H2|].
  exact (X2_export_extends _ _ _ _ _ _ _ _ _ H1 H2 L P).
Defined.

Lemma X5_canonical_id_separators_witness :
  slashes Scenario.windows_path = slashes Scenario.posix_path /\
  (canonical_source_id (lit "Contest_Data") (VStr Scenario.windows_path) =
   canonical_source_id (lit "Contest_Data") (VStr Scenario.posix_path) \/
   (no_occurrence (lit "Contest_Data" ++ lit "/") (slashes Scenario.windows_path) /\
    canonical_source_id (lit "Contest_Data") (VStr Scenario.windows_path) =
      Ok (VStr Scenario.windows_path) /\
    canonical_source_id (lit "Contest_Data") (VStr Scenario.posix_path) =
      Ok (VStr Scenario.posix_path))).
Proof.
  assert (H : slashes Scenario.windows_path = slashes Scenario.posix_path) by reflexivity.
  exact (conj H (X5_canonical_id_separators (lit "Contest_Data") _ _ H)).
Defined.

Lemma X6_title_bound_witness :
  exports Sample.later Sample.later Sample.one_exchange Sample.session /\
  (List.length (title Sample.session) <= 63)%nat.
Proof.
  assert (H : exports Sample.later Sample.later Sample.one_exchange Sample.session)
    by (vm_compute; reflexivity).
  exact (conj H (proj1 (X6_title_bound _ _ _ _ H))).
Defined.

End ExportExamples.

(** ** One exchange, case by case *)

Section Exchange.

Context {platform : Platform}.

Lemma bind_run {A B} (m : M A) (k : A -> M B) (app : App) :
  bind m k app =
  match m app with
  | (Ok a, app1) => k a app1
  | (Raise e, app1) => (Raise e, app1)
  end.
Proof. reflexivity. Qed.

Lemma bind_emit {B} (e : UiEvent) (k : unit -> M B) (app : App) :
  bind (emit e) k app =
  k tt {| session_state := session_state app; screen := screen app ++ [e] |}.
Proof. reflexivity. Qed.

Lemma bind_append_message {B} (m : Message) (k : unit -> M B) (app : App) :
  bind (append_message m) k app =
  k tt {| session_state :=
            {| config := config (session_state app);
               messages := messages (session_state app) ++ [m];
               conversation_log := conversation_log (session_state app) |};
          screen := screen app |}.
Proof. reflexivity. Qed.

Lemma bind_get_session {B} (k : Session -> M B) (app : App) :
  bind get_session k app = k (session_state app) app.
Proof. reflexivity. Qed.

Lemma bind_lift {A B} (r : result A) (k : A -> M B) (app : App) :
  bind (lift r) k app =
  match r with
  | Ok a => k a app
  | Raise e => (Raise e, app)
  end.
Proof. now destruct r. Qed.

Lemma session_kept_ret {A} (a : A) : keeps_session (ret a).
Proof. intros app. reflexivity. Qed.

Lemma session_kept_lift {A} (r : result A) : keeps_session (lift r).
Proof. intros app. reflexivity. Qed.

Lemma session_kept_emit (e : UiEvent) : keeps_session (emit e).
Proof. intros app. reflexivity. Qed.

Lemma session_kept_bind {A B} (m : M A) (k : A -> M B) :
  keeps_session m -> (forall a, keeps_session (k a)) -> keeps_session (bind m k).
Proof.
  intros Hm Hk app. unfold bind. specialize (Hm app).
  destruct (m app) as [[a|e] app1]; cbn [snd] in *; [|exact Hm].
  now rewrite (Hk a app1).
Qed.

Lemma session_kept_when (b : bool) (m : M unit) :
  keeps_session m -> keeps_session (when b m).
Proof. destruct b; [easy | intros _; apply session_kept_ret]. Qed.

Lemma session_kept_for_each {A} (l : list A) (body : A -> M unit) :
  (forall x, keeps_session (body x)) -> keeps_session (for_each l body).
Proof.
  intros H. induction l as [|x l IH]; [apply session_kept_ret|].
  apply session_kept_bind; [apply H | intros _; exact IH].
Qed.

Lemma session_kept_render_source (i : Z) (doc : Document) :
  keeps_session (render_source i doc).
Proof.
  unfold render_source.
  repeat (apply session_kept_bind;
          [first [apply session_kept_lift | apply session_kept_emit] | intros ?]).
  apply session_kept_emit.
Qed.

Lemma session_kept_sources (docs : option (list Document)) :
  keeps_session
    (when (nonempty docs)
       (emit (UiSourcesExpander (Z.of_nat (List.length (or_empty docs)))) ;;
        for_each (enumerate (or_empty docs) 1) (fun '(i, doc) => render_source i doc))).
Proof.
  apply session_kept_when, session_kept_bind; [apply session_kept_emit|]. intros _.
  apply session_kept_for_each. intros [i doc]. apply session_kept_render_source.
Qed.

Lemma only_draws_ret : only_draws (ret tt).
Proof. intros app. now split. Qed.

Lemma only_draws_emit (e : UiEvent) : only_draws (emit e).
Proof. intros app. now split. Qed.

Lemma only_draws_seq (m k : M unit) :
  only_draws m -> only_draws k -> only_draws (m ;; k).
Proof.
  intros Hm Hk app. unfold bind. destruct (Hm app) as [R S].
  destruct (m app) as [r app1]. cbn [fst snd] in *. subst r.
  destruct (Hk app1) as [R' S']. split; [exact R' | congruence].
Qed.

Lemma only_draws_when (b : bool) (m : M unit) : only_draws m -> only_draws (when b m).
Proof. destruct b; [easy | intros _; apply only_draws_ret]. Qed.

Lemma only_draws_for_each {A} (l : list A) (body : A -> M unit) :
  (forall x, In x l -> only_draws (body x)) -> only_draws (for_each l body).
Proof.
  induction l as [|x l IH]; intros H; [apply only_draws_ret|].
  cbn [for_each]. apply only_draws_seq; [apply H; now left|].
  apply IH. intros y Hy. apply H. now right.
Qed.

(** What only draws can be stepped over. *)
Lemma only_draws_then {B} (P : result B * App -> Prop) (m : M unit)
    (k : unit -> M B) (app : App) :
  only_draws m ->
  (forall app1, session_state app1 = session_state app -> P (k tt app1)) ->
  P (bind m k app).
Proof.
  intros H Hk. destruct (H app) as [R S]. unfold bind.
  destruct (m app) as [r app1]. cbn [fst snd] in *. subst r. now apply Hk.
Qed.

(** A document is drawn exactly when it is [renderable]; otherwise drawing
    it raises an [Exception]. *)
Lemma render_source_cases (i : Z) (d : Document) (app : App) :
  (renderable d = true /\ fst (render_source i d app) = Ok tt) \/
  (renderable d = false /\
   exists e, is_Exception e = true /\ fst (render_source i d app) = Raise e).
Proof.
  destruct d as [pc md]. unfold renderable, well_formed_doc.
  cbv [render_source bind lift emit getattr py_get py_Path py_prefix_plus fst
         page_content metadata].
  destruct md as [[| | | | |kvs]|];
    try (right; split; [now destruct pc | eexists; split; [|reflexivity]; reflexivity]).
  destruct (dict_lookup (lit "source") kvs) as [[| | |p| |]|];
    destruct pc as [[| | |t| |]|];
    first [ left; split; reflexivity
          | right; split; [reflexivity | eexists; split; [|reflexivity]; reflexivity] ].
Qed.

Lemma sources_loop_cases (l : list Document) : forall (start : Z) (app : App),
  (forallb renderable l = true /\
   fst (for_each (enumerate l start) (fun '(i, doc) => render_source i doc) app) = Ok tt) \/
  (forallb renderable l = false /\
   exists e, is_Exception e = true /\
     fst (for_each (enumerate l start) (fun '(i, doc) => render_source i doc) app) =
       Raise e).
Proof.
  induction l as [|x l IH]; intros start app; [left; now split|].
  cbn [enumerate for_each forallb]. rewrite bind_run.
  destruct (render_source_cases start x app) as [[R E]|[R [e [X E]]]]; rewrite R;
    destruct (render_source start x app) as [[[]|e'] app1]; cbn [fst] in E;
    try discriminate.
  - cbn [andb]. apply IH.
  - right. split; [reflexivity|]. exists e. split; [exact X | exact E].
Qed.

Lemma sources_cases (docs : option (list Document)) (app : App) :
  (forallb renderable (or_empty docs) = true /\
   fst (when (nonempty docs)
          (emit (UiSourcesExpander (Z.of_nat (List.length (or_empty docs)))) ;;
           for_each (enumerate (or_empty docs) 1)
             (fun '(i, doc) => render_source i doc)) app) = Ok tt) \/
  (forallb renderable (or_empty docs) = false /\
   exists e, is_Exception e = true /\
     fst (when (nonempty docs)
            (emit (UiSourcesExpander (Z.of_nat (List.length (or_empty docs)))) ;;
             for_each (enumerate (or_empty docs) 1)
               (fun '(i, doc) => render_source i doc)) app) = Raise e).
Proof.
  destruct docs as [[|x l]|]; cbn [nonempty when or_empty];
    try (left; now split).
  rewrite bind_emit. apply sources_loop_cases.
Qed.

Lemma renderable_well_formed (l : list Document) :
  forallb renderable l = true -> forallb well_formed_doc l = true.
Proof.
  rewrite !forallb_forall. intros H d Hd. specialize (H d Hd).
  unfold renderable in H. now apply andb_true_iff in H as [W _].
Qed.

Lemma renderable_exportable (l : list Document) :
  forallb renderable l = true -> forallb exportable_source (map raw_of l) = true.
Proof.
  rewrite !forallb_forall. intros H r Hr. apply in_map_iff in Hr as [d [<- Hd]].
  specialize (H d Hd). unfold renderable in H. apply andb_true_iff in H as [W P].
  apply raw_of_exportable; [exact W|].
  destruct (page_content d) as [[| | |t| |]|]; try discriminate. now exists t.
Qed.

Lemma show_and_log_ends (now : datetime) (prompt : str) (show_reasoning : bool)
    (r : PipelineResult) (app : App) :
  shown_and_logged (session_state app) prompt r
    (show_and_log now prompt show_reasoning r app).
Proof.
  destruct r as [[[a docs] reasoning] md]. unfold show_and_log, shown_and_logged.
  rewrite bind_emit.
  set (app1 := {| session_state := session_state app;
                  screen := screen app ++ [UiMarkdown a] |}).
  rewrite bind_run.
  pose proof (session_kept_sources docs app1) as K.
  destruct (sources_cases docs app1) as [[R E]|[R [e [X E]]]];
    destruct (when (nonempty docs) _ app1) as [[[]|e'] app2]; cbn [fst snd] in *;
    try discriminate.
  2:{ left. split; [exact R|]. split; [|exact K]. exists e. now split. }
  right. split; [exact R|].
  match goal with
  | |- context [@bind unit ?B ?m ?k app2] =>
      pattern (@bind unit B m k app2); apply (only_draws_then _ m k app2);
        [apply only_draws_when, only_draws_seq; apply only_draws_emit|]
  end.
  intros app3 S3.
  match goal with
  | |- context [@bind unit ?B ?m ?k app3] =>
      pattern (@bind unit B m k app3); apply (only_draws_then _ m k app3);
        [apply only_draws_when, only_draws_seq; apply only_draws_emit|]
  end.
  intros app4 S4. cbv beta.
  rewrite bind_append_message, bind_run.
  match goal with
  | |- context [log_conversation_turn now prompt a docs md ?x] =>
      destruct (log_conversation_turn_outcome now prompt a docs md x)
        as [[sums [L _]]|[e [_ W]]]
  end.
  - rewrite L. cbn [rerun raise fst snd]. split; [reflexivity|].
    exists {| timestamp := dt_isoformat now; question := prompt; answer := a;
              num_sources := Z.of_nat (List.length (or_empty docs));
              raw_sources := Some (map raw_of (or_empty docs));
              sources := sums;
              extracted_metadata := if truthy md then Some md else None |}.
    split; [reflexivity|]. split; [reflexivity|]. split; [reflexivity|].
    cbn [with_turn session_state config messages conversation_log].
    now rewrite S4, S3, K.
  - rewrite (renderable_well_formed _ R) in W. discriminate.
Qed.

Lemma answer_and_log_ends (answer_question : Pipeline) (now : datetime) (prompt : str)
    (show_reasoning : bool) (app : App) :
  match answer_question prompt (config (session_state app)) show_reasoning with
  | Raise e => answer_and_log answer_question now prompt show_reasoning app = (Raise e, app)
  | Ok r =>
      shown_and_logged (session_state app) prompt r
        (answer_and_log answer_question now prompt show_reasoning app)
  end.
Proof.
  unfold answer_and_log. rewrite bind_get_session, bind_lift.
  destruct (answer_question prompt (config (session_state app)) show_reasoning) as [r|e];
    [apply show_and_log_ends | reflexivity].
Qed.

(** [handle_user_input] is its first five statements and then the [try]. *)
Lemma handle_user_input_unfold (answer_question : Pipeline) (now : datetime)
    (prompt : str) (show_reasoning : bool) (app : App) :
  handle_user_input answer_question now prompt show_reasoning app =
  try_except_M (answer_and_log answer_question now prompt show_reasoning)
    (fun e => emit (UiError e))
    {| session_state := asked_session (session_state app) prompt;
       screen := (((screen app ++ [UiChatMessage (lit "user")]) ++ [UiMarkdown prompt]) ++
                  [UiChatMessage (lit "assistant")]) ++ [UiSpinner] |}.
Proof. reflexivity. Qed.

(** All the ways in which an exchange ends. *)
Lemma handle_user_input_ends (answer_question : Pipeline) (now : datetime)
    (prompt : str) (show_reasoning : bool) (app : App) :
  let out := handle_user_input answer_question now prompt show_reasoning app in
  let x := session_state app in
  match answer_question prompt (config x) show_reasoning with
  | Raise e =>
      session_state (snd out) = asked_session x prompt /\
      (if is_Exception e
       then fst out = Ok tt /\ exists scr, screen (snd out) = scr ++ [UiError e]
       else fst out = Raise e)
  | Ok (a, docs, reasoning, md) =>
      if forallb renderable (or_empty docs)
      then fst out = Raise RerunException /\
           exists turn,
             question turn = prompt /\ answer turn = a /\
             raw_sources turn = Some (map raw_of (or_empty docs)) /\
             session_state (snd out) =
               answered_session x prompt a docs reasoning md turn
      else session_state (snd out) = asked_session x prompt /\
           fst out = Ok tt /\
           exists e scr, is_Exception e = true /\ screen (snd out) = scr ++ [UiError e]
  end.
Proof.
  cbv zeta. rewrite handle_user_input_unfold. unfold try_except_M.
  set (app1 := {| session_state := asked_session (session_state app) prompt;
                  screen := _ |}).
  pose proof (answer_and_log_ends answer_question now prompt show_reasoning app1) as H.
  change (config (session_state app1)) with (config (session_state app)) in H.
  destruct (answer_question prompt (config (session_state app)) show_reasoning)
    as [[[[a docs] reasoning] md]|e].
  - unfold shown_and_logged in H.
    destruct H as [[R [[e [X E]] S]]|[R [E [turn [Q [A [W S]]]]]]]; rewrite R;
      destruct (answer_and_log _ _ _ _ app1) as [[[]|e'] app2]; cbn [fst snd] in *;
      try discriminate.
    + injection E as ->. rewrite X. cbn [emit fst snd session_state screen].
      split; [exact S|]. split; [reflexivity|]. exists e, (screen app2). now split.
    + injection E as ->. cbn [is_Exception fst snd]. split; [reflexivity|].
      exists turn. repeat (split; [assumption|]).
      rewrite S. unfold answered_session. subst app1.
      cbn [session_state asked_session config messages conversation_log].
      now rewrite <- app_assoc.
  - rewrite H. destruct (is_Exception e); cbn [emit fst snd session_state screen].
    + split; [reflexivity|]. split; [reflexivity|]. now exists (screen app1).
    + now split.
Qed.

Lemma export_keeps_session (now_id now_file : datetime) : keeps_session
  (export_conversation now_id now_file).
Proof.
  intros app. destruct (conversation_log (session_state app)) as [|turn rest] eqn:L.
  - now rewrite (export_conversation_empty _ _ _ L).
  - rewrite (export_conversation_turns _ _ _ _ _ L). now destruct (export_turns _ _ _).
Qed.

Lemma assistant_answers_app (l1 l2 : list Message) :
  assistant_answers (l1 ++ l2) = assistant_answers l1 ++ assistant_answers l2.
Proof.
  induction l1 as [|[c|c d r m] l1 IH]; cbn [app assistant_answers]; [reflexivity|exact IH|].
  now rewrite IH.
Qed.

Lemma sound_asked (x : Session) (prompt : str) : sound x -> sound (asked_session x prompt).
Proof.
  intros [R [E A]]. unfold sound, asked_session. cbn [messages conversation_log].
  rewrite forallb_app, R, assistant_answers_app, A. cbn. now rewrite app_nil_r.
Qed.

Lemma sound_answered (x : Session) (prompt a : str) (docs : option (list Document))
    (reasoning : option str) (md : pyval) (turn : Turn) :
  sound x -> forallb renderable (or_empty docs) = true ->
  answer turn = a -> raw_sources turn = Some (map raw_of (or_empty docs)) ->
  sound (answered_session x prompt a docs reasoning md turn).
Proof.
  intros [R [E A]] D Ha Hr. unfold sound, answered_session.
  cbn [messages conversation_log]. split; [|split].
  - rewrite forallb_app, R. cbn. now rewrite D.
  - apply exportable_log_app; [exact E|]. rewrite Hr. cbn [or_empty].
    now apply renderable_exportable.
  - rewrite map_app, assistant_answers_app, A. cbn. now rewrite Ha.
Qed.

Lemma handle_user_input_sound (answer_question : Pipeline) (now : datetime)
    (prompt : str) (show_reasoning : bool) (app : App) :
  sound (session_state app) ->
  sound (session_state (snd (handle_user_input answer_question now prompt
                               show_reasoning app))).
Proof.
  intros S.
  pose proof (handle_user_input_ends answer_question now prompt show_reasoning app) as H.
  cbv zeta in H.
  destruct (answer_question prompt (config (session_state app)) show_reasoning)
    as [[[[a docs] reasoning] md]|e].
  - destruct (forallb renderable (or_empty docs)) eqn:D.
    + destruct H as [_ [turn [_ [A [W ->]]]]]. now apply sound_answered.
    + destruct H as [-> _]. now apply sound_asked.
  - destruct H as [-> _]. now apply sound_asked.
Qed.

Lemma reachable_sound (app : App) : reachable app -> sound (session_state app).
Proof.
  induction 1 as [cfg|app pipeline now prompt show _ IH|app n1 n2 _ IH|app _ IH
                 |app cfg _ IH|app _ IH].
  - now repeat split.
  - now apply handle_user_input_sound.
  - now rewrite export_keeps_session.
  - now repeat split.
  - exact IH.
  - exact IH.
Qed.

End Exchange.

Section ExchangeProperties.

Context {platform : Platform}.


(** X8. When the pipeline raises, the user's message is the only thing the
    exchange leaves in the session: messages has it as one more entry, and
    configuration and log are as before. *)
Theorem X8_failed_exchange_keeps_prompt (answer_question : Pipeline) (now : datetime)
    (prompt : str) (show_reasoning : bool) (app : App) (e : exn) :
  answer_question prompt (config (session_state app)) show_reasoning = Raise e ->
  session_state (snd (handle_user_input answer_question now prompt show_reasoning app)) =
    {| config := config (session_state app);
       messages := messages (session_state app) ++ [UserMessage prompt];
       conversation_log := conversation_log (session_state app) |}.
Proof.
  intros P.
  pose proof (handle_user_input_ends answer_question now prompt show_reasoning app) as H.
  cbv zeta in H. rewrite P in H. exact (proj1 H).
Qed.

(** X9. A document that cannot be drawn costs the whole answer: when the
    pipeline returns one that lacks an attribute, whose metadata is not a
    mapping, whose ['source'] is not a string or whose text is not a string,
    the exchange shows an error and ends normally, and neither the answer
    nor a turn is stored. *)
Theorem X9_undrawable_document_loses_answer (answer_question : Pipeline)
    (now : datetime) (prompt : str) (show_reasoning : bool) (app : App)
    (a : str) (docs : option (list Document)) (reasoning : option str) (md : pyval) :
  answer_question prompt (config (session_state app)) show_reasoning =
    Ok (a, docs, reasoning, md) ->
  forallb renderable (or_empty docs) = false ->
  fst (handle_user_input answer_question now prompt show_reasoning app) = Ok tt /\
  session_state (snd (handle_user_input answer_question now prompt show_reasoning app)) =
    {| config := config (session_state app);
       messages := messages (session_state app) ++ [UserMessage prompt];
       conversation_log := conversation_log (session_state app) |} /\
  exists e scr,
    is_Exception e = true /\
    screen (snd (handle_user_input answer_question now prompt show_reasoning app)) =
      scr ++ [UiError e].
Proof.
  intros P R.
  pose proof (handle_user_input_ends answer_question now prompt show_reasoning app) as H.
  cbv zeta in H. rewrite P, R in H. destruct H as [S [E X]]. now repeat split.
Qed.

(** X10. No [Exception] leaves [handle_user_input]: what it raises is a
    rerun request or something that is not an [Exception]. It returns
    normally only after an error, which is then the last thing on the
    screen, and then no answer and no turn were stored. *)
Theorem X10_no_exception_escapes (answer_question : Pipeline) (now : datetime)
    (prompt : str) (show_reasoning : bool) (app : App) :
  (forall e, fst (handle_user_input answer_question now prompt show_reasoning app) =
             Raise e -> is_Exception e = false) /\
  (fst (handle_user_input answer_question now prompt show_reasoning app) = Ok tt ->
   (exists e scr,
      is_Exception e = true /\
      screen (snd (handle_user_input answer_question now prompt show_reasoning app)) =
        scr ++ [UiError e]) /\
   session_state (snd (handle_user_input answer_question now prompt show_reasoning app)) =
     asked_session (session_state app) prompt).
Proof.
  pose proof (handle_user_input_ends answer_question now prompt show_reasoning app) as H.
  cbv zeta in H.
  destruct (answer_question prompt (config (session_state app)) show_reasoning)
    as [[[[a docs] reasoning] md]|e].
  - destruct (forallb renderable (or_empty docs)).
    + destruct H as [E _]. rewrite E. split; [|discriminate].
      intros e' X. now injection X as <-.
    + destruct H as [S [E X]]. rewrite E. split; [discriminate|]. intros _. now split.
  - destruct H as [S E]. destruct (is_Exception e) eqn:X.
    + destruct E as [E [scr Hs]]. rewrite E. split; [discriminate|]. intros _.
      split; [|exact S]. now exists e, scr.
    + rewrite E. split; [|discriminate]. intros e' Y. now injection Y as <-.
Qed.

(** X11. In every session that the page can be in, the log and the stored
    messages agree: the answers of the turns are the contents of the stored
    assistant messages, in order, and every document of a stored message
    can be drawn again. *)
Theorem X11_log_matches_messages (app : App) :
  reachable app ->
  map answer (conversation_log (session_state app)) =
    assistant_answers (messages (session_state app)) /\
  List.length (conversation_log (session_state app)) =
    List.length (assistant_answers (messages (session_state app))) /\
  forallb renderable_message (messages (session_state app)) = true.
Proof.
  intros R. destruct (reachable_sound app R) as [D [_ A]].
  split; [exact A|]. split; [|exact D]. rewrite <- A. now rewrite length_map.
Qed.

(** X12. What is missing stays missing in the log: for a document without
    ['country'] (and likewise without ['law']) the sources expander shows
    "unknown", while the summary that the logger stores holds [None]. *)
Theorem X12_unknown_is_display_only (i : Z) (d : Document) (kvs : list (str * pyval))
    (app : App) :
  metadata d = Some (VDict kvs) ->
  renderable d = true ->
  (dict_lookup (lit "country") kvs = None ->
   In (UiCaption (lit "Country: ") (VStr (lit "unknown")))
      (screen (snd (render_source i d app))) /\
   exists s, summary_of d = Ok s /\ country s = VNone) /\
  (dict_lookup (lit "law") kvs = None ->
   In (UiCaption (lit "Law: ") (VStr (lit "unknown")))
      (screen (snd (render_source i d app))) /\
   exists s, summary_of d = Ok s /\ law s = VNone).
Proof.
  intros M R. destruct d as [pc md]. cbn [metadata] in M. subst md.
  unfold renderable, well_formed_doc in R. cbn [page_content metadata] in R.
  destruct pc as [[| | |t| |]|]; try (rewrite andb_false_r in R; discriminate).
  cbv [render_source summary_of bind lift emit getattr py_get py_Path py_prefix_plus
         rbind snd screen page_content metadata].
  destruct (dict_lookup (lit "source") kvs) as [[| | |p| |]|]; try discriminate;
    (split; intros ->;
     (split; [rewrite !in_app_iff; cbn [In]; tauto | eexists; split; reflexivity])).
Qed.

End ExchangeProperties.

(** ** What is drawn, and the stored history drawn again *)

Section Drawing.

Context {platform : Platform}.

Variable P : UiEvent -> Prop.

Lemma draws_ret {A} (a : A) : draws_only P (ret a).
Proof. intros app. exists []. cbn. now rewrite app_nil_r. Qed.

Lemma draws_lift {A} (r : result A) : draws_only P (lift r).
Proof. intros app. exists []. cbn. now rewrite app_nil_r. Qed.

Lemma draws_raise {A} (e : exn) : draws_only P (@raise A e).
Proof. intros app. exists []. cbn. now rewrite app_nil_r. Qed.

Lemma draws_get_session : draws_only P get_session.
Proof. intros app. exists []. cbn. now rewrite app_nil_r. Qed.

Lemma draws_put_session (x : Session) : draws_only P (put_session x).
Proof. intros app. exists []. cbn. now rewrite app_nil_r. Qed.

Lemma draws_emit (e : UiEvent) : P e -> draws_only P (emit e).
Proof. intros H app. exists [e]. cbn. split; [reflexivity | now constructor]. Qed.

Lemma draws_bind {A B} (m : M A) (k : A -> M B) :
  draws_only P m -> (forall a, draws_only P (k a)) -> draws_only P (bind m k).
Proof.
  intros Hm Hk app. destruct (Hm app) as [evs [E F]]. unfold bind.
  destruct (m app) as [[a|e] app1]; cbn [snd] in *; [|now exists evs].
  destruct (Hk a app1) as [evs' [E' F']]. exists (evs ++ evs').
  rewrite E', E, app_assoc. split; [reflexivity | now apply Forall_app].
Qed.

Lemma draws_when (b : bool) (m : M unit) : draws_only P m -> draws_only P (when b m).
Proof. destruct b; [easy | intros _; apply draws_ret]. Qed.

Lemma draws_for_each {A} (l : list A) (body : A -> M unit) :
  (forall x, draws_only P (body x)) -> draws_only P (for_each l body).
Proof.
  intros H. induction l as [|x l IH]; [apply draws_ret|].
  apply draws_bind; [apply H | intros _; exact IH].
Qed.

Lemma draws_try_except {A} (body : M A) (handler : exn -> M A) :
  draws_only P body -> (forall e, draws_only P (handler e)) ->
  draws_only P (try_except_M body handler).
Proof.
  intros Hb Hh app. destruct (Hb app) as [evs [E F]]. unfold try_except_M.
  destruct (body app) as [[a|e] app1]; cbn [snd] in *; [now exists evs|].
  destruct (is_Exception e); [|now exists evs].
  destruct (Hh e app1) as [evs' [E' F']]. exists (evs ++ evs').
  rewrite E', E, app_assoc. split; [reflexivity | now apply Forall_app].
Qed.

Hypothesis P_holds : forall e, not_reasoning e -> P e.

Lemma draws_append_message (m : Message) : draws_only P (append_message m).
Proof.
  apply draws_bind; [apply draws_get_session | intros x; apply draws_put_session].
Qed.

Lemma draws_log_conversation_turn now q a docs md :
  draws_only P (log_conversation_turn now q a docs md).
Proof.
  unfold log_conversation_turn.
  apply draws_bind; [apply draws_lift | intros raws].
  apply draws_bind; [apply draws_lift | intros sums].
  apply draws_bind; [apply draws_get_session | intros x; apply draws_put_session].
Qed.

Lemma draws_render_source (i : Z) (doc : Document) : draws_only P (render_source i doc).
Proof.
  unfold render_source.
  repeat (apply draws_bind;
          [first [apply draws_lift | apply draws_emit, P_holds; discriminate] | intros ?]).
  apply draws_emit, P_holds. discriminate.
Qed.

Lemma draws_sources (docs : option (list Document)) :
  draws_only P
    (when (nonempty docs)
       (emit (UiSourcesExpander (Z.of_nat (List.length (or_empty docs)))) ;;
        for_each (enumerate (or_empty docs) 1) (fun '(i, doc) => render_source i doc))).
Proof.
  apply draws_when, draws_bind; [apply draws_emit, P_holds; discriminate|]. intros _.
  apply draws_for_each. intros [i doc]. apply draws_render_source.
Qed.

Lemma draws_metadata (md : pyval) :
  draws_only P (when (truthy md) (emit UiMetadataExpander ;; emit (UiJson md))).
Proof.
  apply draws_when, draws_bind;
    [apply draws_emit, P_holds; discriminate | intros _; apply draws_emit, P_holds; discriminate].
Qed.

(** With the reasoning trace switched off, an exchange draws no reasoning
    expander. *)
Lemma draws_handle_user_input_quiet (answer_question : Pipeline) (now : datetime)
    (prompt : str) :
  draws_only P (handle_user_input answer_question now prompt false).
Proof.
  unfold handle_user_input.
  apply draws_bind; [apply draws_append_message | intros _].
  do 4 (apply draws_bind; [apply draws_emit, P_holds; discriminate | intros _]).
  apply draws_try_except; [|intros e; apply draws_emit, P_holds; discriminate].
  apply draws_bind; [apply draws_get_session | intros x].
  apply draws_bind; [apply draws_lift | intros [[[a docs] reasoning] md]].
  apply draws_bind; [apply draws_emit, P_holds; discriminate | intros _].
  apply draws_bind; [apply draws_sources | intros _].
  rewrite andb_false_r. apply draws_bind; [apply draws_ret | intros _].
  apply draws_bind; [apply draws_metadata | intros _].
  apply draws_bind; [apply draws_append_message | intros _].
  apply draws_bind; [apply draws_log_conversation_turn | intros _].
  apply draws_raise.
Qed.

End Drawing.

Section Replay.

Context {platform : Platform}.

Lemma sources_only_draw (docs : option (list Document)) :
  forallb renderable (or_empty docs) = true ->
  only_draws
    (when (nonempty docs)
       (emit (UiSourcesExpander (Z.of_nat (List.length (or_empty docs)))) ;;
        for_each (enumerate (or_empty docs) 1) (fun '(i, doc) => render_source i doc))).
Proof.
  intros R app. split; [|apply session_kept_sources].
  destruct (sources_cases docs app) as [[_ E]|[R' _]]; [exact E | congruence].
Qed.

Lemma render_message_draws (m : Message) :
  renderable_message m = true -> only_draws (render_message m).
Proof.
  destruct m as [c|c docs reasoning md]; cbn [renderable_message render_message]; intros R.
  - apply only_draws_seq; apply only_draws_emit.
  - repeat (apply only_draws_seq; [first [apply only_draws_emit | idtac] |]).
    + now apply sources_only_draw.
    + apply only_draws_when, only_draws_seq; apply only_draws_emit.
    + apply only_draws_when, only_draws_seq; apply only_draws_emit.
Qed.

Lemma drawn_stays {A} (m : M A) (e : UiEvent) (app : App) :
  draws_only (fun _ => True) m -> In e (screen app) -> In e (screen (snd (m app))).
Proof.
  intros H I. destruct (H app) as [evs [E _]]. rewrite E. apply in_or_app. now left.
Qed.

(** A stored answer with a reasoning trace shows it when it is drawn again. *)
Lemma render_message_reasoning (c : str) (docs : option (list Document))
    (r : str) (md : option pyval) (app : App) :
  forallb renderable (or_empty docs) = true ->
  nonblank (Some r) = true ->
  In UiReasoningExpander
     (screen (snd (render_message (AssistantMessage c docs (Some r) md) app))) /\
  In (UiMarkdown r)
     (screen (snd (render_message (AssistantMessage c docs (Some r) md) app))).
Proof.
  intros R N. cbn [render_message]. rewrite !bind_emit, N. cbn [when].
  match goal with
  | |- context [@bind unit ?B ?m ?k ?a] =>
      pattern (@bind unit B m k a); apply (only_draws_then _ m k a);
        [now apply sources_only_draw|]
  end.
  intros app1 _. cbv beta.
  change (bind (emit UiReasoningExpander ;; emit (UiMarkdown r)) ?k app1)
    with (k tt {| session_state := session_state app1;
                  screen := (screen app1 ++ [UiReasoningExpander]) ++ [UiMarkdown r] |}).
  split; apply drawn_stays;
    try (apply draws_when, draws_bind;
         [apply draws_emit; exact I | intros _; apply draws_emit; exact I]);
    cbn [screen]; rewrite !in_app_iff; cbn [In]; tauto.
Qed.

End Replay.

Section ReplayProperties.

Context {platform : Platform}.



End ReplayProperties.

Section ExchangeExamples.

#[local] Existing Instance posix.


Lemma X8_failed_exchange_keeps_prompt_witness :
  Sample.failing Sample.asked (config (session_state Sample.one_exchange)) true =
    Raise (PipelineFailure (lit "upstream timeout")) /\
  session_state (snd (handle_user_input Sample.failing Sample.later Sample.asked true
                        Sample.one_exchange)) =
    {| config := config (session_state Sample.one_exchange);
       messages := messages (session_state Sample.one_exchange) ++
                   [UserMessage Sample.asked];
       conversation_log := conversation_log (session_state Sample.one_exchange) |}.
Proof.
  assert (H : Sample.failing Sample.asked (config (session_state Sample.one_exchange)) true =
              Raise (PipelineFailure (lit "upstream timeout"))) by reflexivity.
  exact (conj H (X8_failed_exchange_keeps_prompt Sample.failing Sample.later Sample.asked
                   true Sample.one_exchange _ H)).
Defined.

Lemma X9_undrawable_document_loses_answer_witness :
  Scenario.careless Sample.asked (config (session_state Sample.fresh)) false =
    Ok (Sample.reply, Some [Sample.civil_code; Scenario.odd_source], None, VNone) /\
  forallb renderable (or_empty (Some [Sample.civil_code; Scenario.odd_source])) = false /\
  fst (handle_user_input Scenario.careless Sample.noon Sample.asked false Sample.fresh) =
    Ok tt /\
  conversation_log
    (session_state (snd (handle_user_input Scenario.careless Sample.noon Sample.asked
                           false Sample.fresh))) = [].
Proof.
  assert (H1 : Scenario.careless Sample.asked (config (session_state Sample.fresh)) false =
               Ok (Sample.reply, Some [Sample.civil_code; Scenario.odd_source], None, VNone))
    by reflexivity.
  assert (H2 : forallb renderable (or_empty (Some [Sample.civil_code; Scenario.odd_source])) =
               false) by reflexivity.
  destruct (X9_undrawable_document_loses_answer Scenario.careless Sample.noon Sample.asked
              false Sample.fresh _ _ _ _ H1 H2) as [E [S _]].
  split; [exact H1|]. split; [exact H2|]. split; [exact E|]. now rewrite S.
Defined.

Lemma X10_no_exception_escapes_witness :
  fst (handle_user_input Scenario.careless Sample.noon Sample.asked false Sample.fresh) =
    Ok tt /\
  session_state (snd (handle_user_input Scenario.careless Sample.noon Sample.asked false
                        Sample.fresh)) =
    asked_session (session_state Sample.fresh) Sample.asked.
Proof.
  assert (H : fst (handle_user_input Scenario.careless Sample.noon Sample.asked false
                     Sample.fresh) = Ok tt) by reflexivity.
  exact (conj H (proj2 (proj2 (X10_no_exception_escapes Scenario.careless Sample.noon
                                 Sample.asked false Sample.fresh) H))).
Defined.

Lemma X11_log_matches_messages_witness :
  reachable Scenario.two_exchanges /\
  List.length (conversation_log (session_state Scenario.two_exchanges)) =
    List.length (assistant_answers (messages (session_state Scenario.two_exchanges))).
Proof.
  assert (R : reachable Scenario.two_exchanges)
    by exact (reach_input _ Sample.answering Sample.later Scenario.follow_up true
                (reach_input _ Sample.answering Sample.noon Sample.asked false
                   (reach_init Sample.cfg))).
  exact (conj R (proj1 (proj2 (X11_log_matches_messages _ R)))).
Defined.

Lemma X12_unknown_is_display_only_witness :
  metadata Sample.ruling =
    Some (VDict [(lit "source", VStr Scenario.windows_path);
                 (lit "db_name", VStr (lit "slovenia_cases"))]) /\
  renderable Sample.ruling = true /\
  dict_lookup (lit "country")
    [(lit "source", VStr Scenario.windows_path);
     (lit "db_name", VStr (lit "slovenia_cases"))] = None /\
  In (UiCaption (lit "Country: ") (VStr (lit "unknown")))
     (screen (snd (render_source 2 Sample.ruling Sample.fresh))) /\
  exists s, summary_of Sample.ruling = Ok s /\ country s = VNone.
Proof.
  assert (H1 : metadata Sample.ruling =
               Some (VDict [(lit "source", VStr Scenario.windows_path);
                            (lit "db_name", VStr (lit "slovenia_cases"))])) by reflexivity.
  assert (H2 : renderable Sample.ruling = true) by reflexivity.
  assert (H3 : dict_lookup (lit "country")
                 [(lit "source", VStr Scenario.windows_path);
                  (lit "db_name", VStr (lit "slovenia_cases"))] = None) by reflexivity.
  exact (conj H1 (conj H2 (conj H3
           (proj1 (X12_unknown_is_display_only 2 Sample.ruling _ Sample.fresh H1 H2) H3)))).
Defined.



End ExchangeExamples.

(** ** A run of the script *)

Section ScriptLemmas.

Context {platform : Platform}.

Lemma wbind_draw {B} (d : Drawn) (k : unit -> W B) (w : Window) :
  wbind (draw d) k w =
  k tt {| window_session := window_session w; drawn := drawn w ++ [d] |}.
Proof. reflexivity. Qed.

Lemma wbind_update_config {B} (f : RAGConfig -> RAGConfig) (k : unit -> W B) (w : Window) :
  wbind (update_config f) k w =
  k tt {| window_session :=
            {| config := f (config (window_session w));
               messages := messages (window_session w);
               conversation_log := conversation_log (window_session w) |};
          drawn := drawn w |}.
Proof. reflexivity. Qed.

Lemma wbind_get_config {B} (k : RAGConfig -> W B) (w : Window) :
  wbind get_config k w = k (config (window_session w)) w.
Proof. reflexivity. Qed.

Lemma wbind_run {A B} (m : W A) (k : A -> W B) (w : Window) :
  wbind m k w =
  match m w with
  | (Done a, w') => k a w'
  | (Stopped, w') => (Stopped, w')
  | (Raised e, w') => (Raised e, w')
  end.
Proof. reflexivity. Qed.

Lemma in_page_run {A} (m : M A) (w : Window) :
  in_page m w =
  (match fst (m {| session_state := window_session w; screen := [] |}) with
   | Ok x => Done x
   | Raise e => Raised e
   end,
   {| window_session :=
        session_state (snd (m {| session_state := window_session w; screen := [] |}));
      drawn := drawn w ++
        map Page (screen (snd (m {| session_state := window_session w; screen := [] |}))) |}).
Proof. unfold in_page. now destruct (m _) as [r a]. Qed.

(** *** Views of the session that a piece of the script keeps *)

Section Keeps.

Context {T : Type} (f : Session -> T).

Lemma keeps_wret {A} (a : A) : run_keeps f (wret a).
Proof. intros w. reflexivity. Qed.

Lemma keeps_draw (d : Drawn) : run_keeps f (draw d).
Proof. intros w. reflexivity. Qed.

Lemma keeps_get_config : run_keeps f get_config.
Proof. intros w. reflexivity. Qed.

Lemma keeps_wbind {A B} (m : W A) (k : A -> W B) :
  run_keeps f m -> (forall a, run_keeps f (k a)) -> run_keeps f (wbind m k).
Proof.
  intros Hm Hk w. unfold wbind. specialize (Hm w).
  destruct (m w) as [[a| |e] w1]; cbn [snd] in *; try exact Hm.
  now rewrite (Hk a w1).
Qed.

Lemma keeps_wwhen (b : bool) (m : W unit) : run_keeps f m -> run_keeps f (wwhen b m).
Proof. destruct b; [easy | intros _; apply keeps_wret]. Qed.

Lemma keeps_wfor_each {A} (l : list A) (body : A -> W unit) :
  (forall x, run_keeps f (body x)) -> run_keeps f (wfor_each l body).
Proof.
  intros H. induction l as [|x l IH]; [apply keeps_wret|].
  apply keeps_wbind; [apply H | intros _; exact IH].
Qed.

Lemma keeps_in_page {A} (m : M A) : page_keeps f m -> run_keeps f (in_page m).
Proof. intros H w. rewrite in_page_run. cbn [snd window_session]. apply H. Qed.

Lemma keeps_export (now_id now_file : datetime) :
  page_keeps f (export_conversation now_id now_file).
Proof. intros app. now rewrite export_keeps_session. Qed.

(** What the sidebar does after its assignments to the configuration. *)
Lemma keeps_sidebar_rest (input : SidebarInput) (now_id now_file : datetime)
    (show_reasoning : bool) :
  page_keeps f clear_conversation \/ clear_pressed input = false ->
  run_keeps f
    (config <~ get_config ;;;
     draw (SideText (lit "LLM: " ++ llm_model_name config)) ;;;
     draw (SideText (lit "Embeddings: " ++ embedding_model_name config)) ;;;
     (match vector_store_dirs config with
      | _ :: _ =>
          draw (SideText (lit "Vector DBs: " ++
                          decimal (List.length (vector_store_dirs config)))) ;;;
          let db_names := sorted (map path_name (vector_store_dirs config)) in
          wfor_each db_names (fun db_name => draw (SideCaption (db_caption db_name)))
      | [] => draw (SideWarning (lit "Vector DBs list is empty in config."))
      end) ;;;
     draw SideDivider ;;;
     wwhen (export_pressed input) (in_page (export_conversation now_id now_file)) ;;;
     wwhen (clear_pressed input) (in_page clear_conversation) ;;;
     wret show_reasoning).
Proof.
  intros C.
  apply keeps_wbind; [apply keeps_get_config | intros c].
  do 2 (apply keeps_wbind; [apply keeps_draw | intros _]).
  apply keeps_wbind.
  { destruct (vector_store_dirs c); [apply keeps_draw|].
    apply keeps_wbind; [apply keeps_draw | intros _].
    apply keeps_wfor_each. intros x. apply keeps_draw. }
  intros _. apply keeps_wbind; [apply keeps_draw | intros _].
  apply keeps_wbind; [apply keeps_wwhen, keeps_in_page, keeps_export | intros _].
  apply keeps_wbind; [|intros _; apply keeps_wret].
  destruct C as [C| ->]; [apply keeps_wwhen, keeps_in_page, C | apply keeps_wret].
Qed.

End Keeps.

Lemma clear_keeps_config : page_keeps config clear_conversation.
Proof. intros app. reflexivity. Qed.

(** The sidebar is its assignments to the configuration, and then the rest. *)
Lemma render_sidebar_unfold (input : SidebarInput) (now_id now_file : datetime)
    (w : Window) :
  render_sidebar input now_id now_file w =
  (config <~ get_config ;;;
   draw (SideText (lit "LLM: " ++ llm_model_name config)) ;;;
   draw (SideText (lit "Embeddings: " ++ embedding_model_name config)) ;;;
   (match vector_store_dirs config with
    | _ :: _ =>
        draw (SideText (lit "Vector DBs: " ++
                        decimal (List.length (vector_store_dirs config)))) ;;;
        let db_names := sorted (map path_name (vector_store_dirs config)) in
        wfor_each db_names (fun db_name => draw (SideCaption (db_caption db_name)))
    | [] => draw (SideWarning (lit "Vector DBs list is empty in config."))
    end) ;;;
   draw SideDivider ;;;
   wwhen (export_pressed input) (in_page (export_conversation now_id now_file)) ;;;
   wwhen (clear_pressed input) (in_page clear_conversation) ;;;
   wret (show_reasoning_box input))
    {| window_session :=
         {| config :=
              set_use_rerank (use_rerank_box input)
                (set_top_k_final (top_k_final_slider input)
                   (set_top_k (top_k_slider input)
                      (set_use_multiagent
                         (negb (PyStr.eqb (agent_mode input) (lit "Single Agent (ReAct)")))
                         (set_agentic_mode (lit "react") (config (window_session w))))));
            messages := messages (window_session w);
            conversation_log := conversation_log (window_session w) |};
       drawn := (drawn w ++ [SideDivider]) ++ [SideDivider] |}.
Proof.
  unfold render_sidebar.
  destruct (PyStr.eqb (agent_mode input) (lit "Single Agent (ReAct)")); reflexivity.
Qed.

End ScriptLemmas.

Section ScriptSafety.

Context {platform : Platform}.

Lemma safe_wret {A} (a : A) : run_safe (wret a).
Proof. intros w S. split; [exact S | discriminate]. Qed.

Lemma safe_draw (d : Drawn) : run_safe (draw d).
Proof. intros w S. split; [exact S | discriminate]. Qed.

Lemma safe_get_config : run_safe get_config.
Proof. intros w S. split; [exact S | discriminate]. Qed.

Lemma safe_stop {A} : run_safe (@stop A).
Proof. intros w S. split; [exact S | discriminate]. Qed.

Lemma safe_update_config (f : RAGConfig -> RAGConfig) : run_safe (update_config f).
Proof. intros w S. split; [exact S | discriminate]. Qed.

Lemma safe_wbind {A B} (m : W A) (k : A -> W B) :
  run_safe m -> (forall a, run_safe (k a)) -> run_safe (wbind m k).
Proof.
  intros Hm Hk w S. destruct (Hm w S) as [S1 E1]. unfold wbind.
  destruct (m w) as [[a| |e] w1]; cbn [fst snd] in *.
  - now apply Hk.
  - split; [exact S1 | discriminate].
  - split; [exact S1|]. intros e' X. injection X as <-. now apply E1.
Qed.

Lemma safe_wwhen (b : bool) (m : W unit) : run_safe m -> run_safe (wwhen b m).
Proof. destruct b; [easy | intros _; apply safe_wret]. Qed.

Lemma safe_wfor_each {A} (l : list A) (body : A -> W unit) :
  (forall x, run_safe (body x)) -> run_safe (wfor_each l body).
Proof.
  intros H. induction l as [|x l IH]; [apply safe_wret|].
  apply safe_wbind; [apply H | intros _; exact IH].
Qed.

Lemma safe_in_page {A} (m : M A) : page_safe m -> run_safe (in_page m).
Proof.
  intros H w S. rewrite in_page_run. cbn [fst snd window_session].
  destruct (H {| session_state := window_session w; screen := [] |} S) as [S1 E1].
  split; [exact S1|]. intros e X.
  destruct (fst (m _)) as [x|e']; [discriminate|]. injection X as ->. now apply E1.
Qed.

(** An export of a log that can be exported raises nothing. *)
Lemma export_of_exportable (now_id now_file : datetime) (app : App) :
  exportable_log (conversation_log (session_state app)) = true ->
  fst (export_conversation now_id now_file app) = Ok tt.
Proof.
  intros W. destruct (conversation_log (session_state app)) as [|turn rest] eqn:L.
  - now rewrite (export_conversation_empty _ _ _ L).
  - rewrite (export_conversation_turns _ _ _ _ _ L).
    destruct (export_turns_total
                (path_name (data_base_dir (config (session_state app)))) _ [] W) as [h E].
    now rewrite E.
Qed.

Lemma safe_export (now_id now_file : datetime) :
  page_safe (export_conversation now_id now_file).
Proof.
  intros app S. rewrite export_keeps_session. split; [exact S|].
  intros e X. destruct S as [_ [W _]].
  rewrite (export_of_exportable _ _ _ W) in X. discriminate.
Qed.

Lemma safe_clear : page_safe clear_conversation.
Proof.
  intros app S. split; [now repeat split|]. intros e X. now injection X as <-.
Qed.

Lemma handle_user_input_raises (answer_question : Pipeline) (now : datetime)
    (prompt : str) (show_reasoning : bool) (app : App) (e : exn) :
  fst (handle_user_input answer_question now prompt show_reasoning app) = Raise e ->
  is_Exception e = false.
Proof.
  pose proof (handle_user_input_ends answer_question now prompt show_reasoning app) as H.
  cbv zeta in H.
  destruct (answer_question prompt (config (session_state app)) show_reasoning)
    as [[[[a docs] reasoning] md]|e'].
  - destruct (forallb renderable (or_empty docs)).
    + destruct H as [E _]. rewrite E. intros X. now injection X as <-.
    + destruct H as [_ [E _]]. rewrite E. discriminate.
  - destruct H as [_ E]. destruct (is_Exception e') eqn:X.
    + destruct E as [E _]. rewrite E. discriminate.
    + rewrite E. intros Y. now injection Y as <-.
Qed.

Lemma safe_handle_user_input (answer_question : Pipeline) (now : datetime)
    (prompt : str) (show_reasoning : bool) :
  page_safe (handle_user_input answer_question now prompt show_reasoning).
Proof.
  intros app S. split; [now apply handle_user_input_sound|].
  intros e. apply handle_user_input_raises.
Qed.

Lemma safe_render_chat_interface (answer_question : Pipeline) (now : datetime)
    (chat_input : option str) (show_reasoning : bool) :
  page_safe (render_chat_interface answer_question now chat_input show_reasoning).
Proof.
  intros app S. unfold render_chat_interface. rewrite bind_get_session.
  match goal with
  | |- context [@bind unit ?B ?m ?k app] =>
      pattern (@bind unit B m k app); apply (only_draws_then _ m k app)
  end.
  - apply only_draws_for_each. intros m Hm. apply render_message_draws.
    destruct S as [D _]. rewrite forallb_forall in D. now apply D.
  - intros app1 E. cbv beta. rewrite <- E in S.
    destruct chat_input as [[|c t]|];
      try (split; [exact S | discriminate]).
    now apply safe_handle_user_input.
Qed.

Lemma safe_render_sidebar (input : SidebarInput) (now_id now_file : datetime) :
  run_safe (render_sidebar input now_id now_file).
Proof.
  unfold render_sidebar.
  apply safe_wbind.
  { destruct (PyStr.eqb _ _);
      (apply safe_wbind; [apply safe_update_config | intros _; apply safe_update_config]). }
  intros _. apply safe_wbind; [apply safe_draw | intros _].
  do 3 (apply safe_wbind; [apply safe_update_config | intros _]).
  apply safe_wbind; [apply safe_draw | intros _].
  apply safe_wbind; [apply safe_get_config | intros c].
  do 2 (apply safe_wbind; [apply safe_draw | intros _]).
  apply safe_wbind.
  { destruct (vector_store_dirs c); [apply safe_draw|].
    apply safe_wbind; [apply safe_draw | intros _].
    apply safe_wfor_each. intros x. apply safe_draw. }
  intros _. apply safe_wbind; [apply safe_draw | intros _].
  apply safe_wbind; [apply safe_wwhen, safe_in_page, safe_export | intros _].
  apply safe_wbind; [apply safe_wwhen, safe_in_page, safe_clear | intros _].
  apply safe_wret.
Qed.

Lemma safe_script (input : SidebarInput) (answer_question : Pipeline)
    (now now_id now_file : datetime) (chat_input : option str) :
  run_safe
    (config <~ get_config ;;;
     match vector_store_dirs config with
     | [] => draw VectorStoresNotFound ;;; stop
     | _ :: _ =>
         show_reasoning <~ render_sidebar input now_id now_file ;;;
         in_page (render_chat_interface answer_question now chat_input show_reasoning) ;;;
         draw MainDivider
     end).
Proof.
  apply safe_wbind; [apply safe_get_config | intros c].
  destruct (vector_store_dirs c).
  - apply safe_wbind; [apply safe_draw | intros _; apply safe_stop].
  - apply safe_wbind; [apply safe_render_sidebar | intros show].
    apply safe_wbind; [apply safe_in_page, safe_render_chat_interface | intros _].
    apply safe_draw.
Qed.

Lemma main_safe (fresh : RAGConfig) (input : SidebarInput) (answer_question : Pipeline)
    (now now_id now_file : datetime) (chat_input : option str) (raw : RawSession) :
  sound (init_session_state fresh raw) ->
  sound (window_session
           (snd (main fresh input answer_question now now_id now_file chat_input raw))) /\
  forall e,
    fst (main fresh input answer_question now now_id now_file chat_input raw) = Raised e ->
    is_Exception e = false.
Proof.
  intros S. unfold main.
  exact (safe_script input answer_question now now_id now_file chat_input
           {| window_session := init_session_state fresh raw; drawn := [] |} S).
Qed.

Lemma sound_stored (fresh : RAGConfig) (x : Session) :
  sound x -> sound (init_session_state fresh (stored x)).
Proof. intros S. exact S. Qed.

Lemma between_runs_sound (x : Session) : between_runs x -> sound x.
Proof.
  induction 1 as [fresh input pipe now n1 n2 chat|x fresh input pipe now n1 n2 chat _ IH].
  - apply main_safe. now repeat split.
  - apply main_safe. now apply sound_stored.
Qed.

End ScriptSafety.

(** ** The conversation across a run *)

Section ScriptTalk.

Context {platform : Platform}.

Lemma session_kept_then {A B} (P : result B * App -> Prop) (m : M A) (k : A -> M B)
    (app : App) :
  keeps_session m ->
  (forall e app1, session_state app1 = session_state app -> P (Raise e, app1)) ->
  (forall a app1, session_state app1 = session_state app -> P (k a app1)) ->
  P (bind m k app).
Proof.
  intros Hm Hr Hk. unfold bind. specialize (Hm app).
  destruct (m app) as [[a|e] app1]; cbn [snd] in Hm; [now apply Hk | now apply Hr].
Qed.

Lemma session_kept_render_message (m : Message) : keeps_session (render_message m).
Proof.
  destruct m as [c|c docs reasoning md]; cbn [render_message].
  - apply session_kept_bind; [apply session_kept_emit | intros _; apply session_kept_emit].
  - do 2 (apply session_kept_bind; [apply session_kept_emit | intros _]).
    apply session_kept_bind; [apply session_kept_sources | intros _].
    apply session_kept_bind; [|intros _];
      apply session_kept_when, session_kept_bind;
      try apply session_kept_emit; intros _; apply session_kept_emit.
Qed.

(** What one run of the chat area adds to the conversation: nothing, the
    user's message, or the user's message, the answer and a turn. *)
Lemma render_chat_interface_adds (answer_question : Pipeline) (now : datetime)
    (chat_input : option str) (show_reasoning : bool) (app : App) :
  exists ms ts,
    messages (session_state (snd (render_chat_interface answer_question now chat_input
                                    show_reasoning app))) =
      messages (session_state app) ++ ms /\
    conversation_log (session_state (snd (render_chat_interface answer_question now
                                            chat_input show_reasoning app))) =
      conversation_log (session_state app) ++ ts /\
    (List.length ms <= 2)%nat /\ (List.length ts <= 1)%nat.
Proof.
  unfold render_chat_interface. rewrite bind_get_session.
  match goal with
  | |- context [@bind unit ?B ?m ?k app] =>
      pattern (@bind unit B m k app); apply (session_kept_then _ m k app)
  end.
  - apply session_kept_for_each, session_kept_render_message.
  - intros e app1 E. exists [], []. cbn [snd]. rewrite E, !app_nil_r. now repeat split; auto.
  - intros [] app1 E. cbv beta.
    destruct chat_input as [[|c t]|];
      try (exists [], []; cbn [ret snd]; rewrite E, !app_nil_r; now repeat split; auto).
    pose proof (handle_user_input_ends answer_question now (c :: t) show_reasoning app1)
      as H.
    cbv zeta in H.
    destruct (answer_question (c :: t) (config (session_state app1)) show_reasoning)
      as [[[[a docs] reasoning] md]|e].
    + destruct (forallb renderable (or_empty docs)).
      * destruct H as [_ [turn [_ [_ [_ ->]]]]]. unfold answered_session.
        cbn [messages conversation_log]. rewrite E.
        eexists. exists [turn]. split; [reflexivity|]. split; [reflexivity|].
        cbn. split; auto.
      * destruct H as [-> _]. unfold asked_session. cbn [messages conversation_log].
        rewrite E. exists [UserMessage (c :: t)], []. rewrite app_nil_r.
        split; [reflexivity|]. split; [reflexivity|]. cbn. split; auto.
    + destruct H as [-> _]. unfold asked_session. cbn [messages conversation_log].
      rewrite E. exists [UserMessage (c :: t)], []. rewrite app_nil_r.
      split; [reflexivity|]. split; [reflexivity|]. cbn. split; auto.
Qed.

Lemma update_config_talk (f : RAGConfig -> RAGConfig) : run_keeps talk (update_config f).
Proof. intros w. reflexivity. Qed.

Lemma sidebar_keeps_talk (input : SidebarInput) (now_id now_file : datetime) :
  clear_pressed input = false ->
  run_keeps talk (render_sidebar input now_id now_file).
Proof.
  intros C w. rewrite render_sidebar_unfold.
  now rewrite (keeps_sidebar_rest talk input now_id now_file _ (or_intror C)).
Qed.

Lemma wfor_each_draw {A} (g : A -> Drawn) (l : list A) : forall w,
  wfor_each l (fun x => draw (g x)) w =
  (Done tt, {| window_session := window_session w; drawn := drawn w ++ map g l |}).
Proof.
  induction l as [|x l IH]; intros w; cbn [wfor_each map].
  - unfold wret. rewrite app_nil_r. now destruct w.
  - rewrite wbind_draw, IH. cbn [window_session drawn]. now rewrite <- app_assoc.
Qed.

Lemma draws_wret {A} (a : A) : run_draws (wret a).
Proof. intros w. exists []. cbn. now rewrite app_nil_r. Qed.

Lemma draws_draw (d : Drawn) : run_draws (draw d).
Proof. intros w. now exists [d]. Qed.

Lemma draws_wbind {A B} (m : W A) (k : A -> W B) :
  run_draws m -> (forall a, run_draws (k a)) -> run_draws (wbind m k).
Proof.
  intros Hm Hk w. destruct (Hm w) as [ds E]. unfold wbind.
  destruct (m w) as [[a| |e] w1]; cbn [snd] in *; try now exists ds.
  destruct (Hk a w1) as [ds' E']. exists (ds ++ ds'). now rewrite E', E, app_assoc.
Qed.

Lemma draws_wwhen (b : bool) (m : W unit) : run_draws m -> run_draws (wwhen b m).
Proof. destruct b; [easy | intros _; apply draws_wret]. Qed.

Lemma draws_in_page {A} (m : M A) : run_draws (in_page m).
Proof. intros w. rewrite in_page_run. cbn [snd drawn]. eauto. Qed.

Lemma str_leb_total (a : str) : forall b, str_leb a b = false -> str_leb b a = true.
Proof.
  induction a as [|x a IH]; intros [|y b]; cbn; try easy.
  destruct (N.eqb_spec x y) as [->|NE].
  - rewrite N.eqb_refl. apply IH.
  - intros H. apply N.ltb_ge in H.
    destruct (N.eqb_spec y x) as [->|_]; [contradiction|]. apply N.ltb_lt. lia.
Qed.

Lemma insert_sorted_permutation (x : str) (l : list str) :
  Permutation (insert_sorted x l) (x :: l).
Proof.
  induction l as [|y l IH]; cbn [insert_sorted]; [reflexivity|].
  destruct (str_leb x y); [reflexivity|].
  rewrite IH. apply perm_swap.
Qed.

Lemma sorted_permutation (l : list str) : Permutation (sorted l) l.
Proof.
  induction l as [|x l IH]; cbn; [reflexivity|].
  rewrite insert_sorted_permutation. now constructor.
Qed.

Lemma insert_sorted_ascending (x : str) (l : list str) :
  ascending l -> ascending (insert_sorted x l).
Proof.
  induction l as [|y l IH]; intros A; [now cbn|].
  cbn [insert_sorted]. destruct (str_leb x y) eqn:L.
  - cbn [ascending]. split; [exact L | exact A].
  - destruct A as [H A]. specialize (IH A). cbn [ascending]. split; [|exact IH].
    destruct l as [|z l]; cbn [insert_sorted].
    + now apply str_leb_total.
    + destruct (str_leb x z); [now apply str_leb_total | exact H].
Qed.

Lemma sorted_ascending (l : list str) : ascending (sorted l).
Proof.
  induction l as [|x l IH]; [now cbn|]. now apply insert_sorted_ascending.
Qed.

End ScriptTalk.

Section ScriptProperties.

Context {platform : Platform}.

(** The sidebar after its assignments: it draws the model names and the
    lines about the stores, and then come the two buttons. *)
Lemma sidebar_rest_run (input : SidebarInput) (now_id now_file : datetime)
    (show_reasoning : bool) (w : Window) :
  (config <~ get_config ;;;
   draw (SideText (lit "LLM: " ++ llm_model_name config)) ;;;
   draw (SideText (lit "Embeddings: " ++ embedding_model_name config)) ;;;
   (match vector_store_dirs config with
    | _ :: _ =>
        draw (SideText (lit "Vector DBs: " ++
                        decimal (List.length (vector_store_dirs config)))) ;;;
        let db_names := sorted (map path_name (vector_store_dirs config)) in
        wfor_each db_names (fun db_name => draw (SideCaption (db_caption db_name)))
    | [] => draw (SideWarning (lit "Vector DBs list is empty in config."))
    end) ;;;
   draw SideDivider ;;;
   wwhen (export_pressed input) (in_page (export_conversation now_id now_file)) ;;;
   wwhen (clear_pressed input) (in_page clear_conversation) ;;;
   wret show_reasoning) w =
  (wwhen (export_pressed input) (in_page (export_conversation now_id now_file)) ;;;
   wwhen (clear_pressed input) (in_page clear_conversation) ;;;
   wret show_reasoning)
    {| window_session := window_session w;
       drawn := drawn w ++
         [SideText (lit "LLM: " ++ llm_model_name (config (window_session w)));
          SideText (lit "Embeddings: " ++ embedding_model_name (config (window_session w)))] ++
         store_lines (config (window_session w)) ++ [SideDivider] |}.
Proof.
  rewrite wbind_get_config, !wbind_draw. rewrite wbind_run. unfold store_lines.
  destruct (vector_store_dirs (config (window_session w))) as [|d ds] eqn:D.
  - rewrite <- wbind_run, !wbind_draw. cbn [window_session drawn].
    f_equal. f_equal. now rewrite <- !app_assoc.
  - rewrite wbind_draw. cbv zeta. rewrite wfor_each_draw. rewrite wbind_draw.
    cbn [window_session drawn]. f_equal. f_equal. now rewrite <- !app_assoc.
Qed.

Lemma export_button_done (input : SidebarInput) (now_id now_file : datetime)
    (w : Window) :
  export_pressed input = false \/
    exportable_log (conversation_log (window_session w)) = true ->
  exists ds,
    wwhen (export_pressed input) (in_page (export_conversation now_id now_file)) w =
    (Done tt, {| window_session := window_session w; drawn := drawn w ++ ds |}).
Proof.
  intros [H|H].
  - rewrite H. exists []. cbn. rewrite app_nil_r. now destruct w.
  - destruct (export_pressed input).
    + cbn [wwhen]. rewrite in_page_run, export_keeps_session.
      rewrite export_of_exportable; [|exact H]. eauto.
    + exists []. cbn. rewrite app_nil_r. now destruct w.
Qed.

(** X15. Without vector stores the run stops at once: it shows the message
    that the stores are missing and nothing else, whatever was pressed or
    typed; the stored conversation is as it was. *)
Theorem X15_no_vector_stores_stops (fresh : RAGConfig) (input : SidebarInput)
    (answer_question : Pipeline) (now now_id now_file : datetime)
    (chat_input : option str) (raw : RawSession) :
  vector_store_dirs fresh = [] ->
  main fresh input answer_question now now_id now_file chat_input raw =
  (Stopped,
   {| window_session :=
        {| config := fresh;
           messages := match raw_messages raw with None => [] | Some l => l end;
           conversation_log :=
             match raw_conversation_log raw with None => [] | Some l => l end |};
      drawn := [VectorStoresNotFound] |}).
Proof.
  intros H. unfold main. rewrite wbind_get_config. unfold init_session_state.
  cbn [window_session config]. destruct (raw_config raw); now rewrite H.
Qed.

(** X16. However the sidebar ends, the configuration then holds what its
    controls returned; the agent mode is "react" whichever option is chosen
    and only [use_multiagent] tells the options apart; the model names, the
    vector stores and the data directory are never changed. *)
Theorem X16_sidebar_configuration (input : SidebarInput) (now_id now_file : datetime)
    (w : Window) :
  let c := config (window_session (snd (render_sidebar input now_id now_file w))) in
  agentic_mode c = lit "react" /\
  use_multiagent c = negb (PyStr.eqb (agent_mode input) (lit "Single Agent (ReAct)")) /\
  top_k c = top_k_slider input /\
  top_k_final c = top_k_final_slider input /\
  use_rerank c = use_rerank_box input /\
  llm_model_name c = llm_model_name (config (window_session w)) /\
  embedding_model_name c = embedding_model_name (config (window_session w)) /\
  vector_store_dirs c = vector_store_dirs (config (window_session w)) /\
  data_base_dir c = data_base_dir (config (window_session w)).
Proof.
  cbv zeta. rewrite render_sidebar_unfold.
  rewrite (keeps_sidebar_rest config input now_id now_file _ (or_introl clear_keeps_config)).
  cbn. now repeat split.
Qed.

(** X17. The sidebar names every vector store once, in ascending order of
    the names, after a line with their number; without stores it shows a
    warning instead. *)
Theorem X17_sidebar_lists_stores (input : SidebarInput) (now_id now_file : datetime)
    (w : Window) :
  let dirs := vector_store_dirs (config (window_session w)) in
  let names := sorted (map path_name dirs) in
  Permutation names (map path_name dirs) /\
  ascending names /\
  exists pre post,
    drawn (snd (render_sidebar input now_id now_file w)) =
      drawn w ++ pre ++
      match dirs with
      | [] => [SideWarning (lit "Vector DBs list is empty in config.")]
      | _ :: _ =>
          SideText (lit "Vector DBs: " ++ decimal (List.length dirs)) ::
          map (fun db_name => SideCaption (db_caption db_name)) names
      end ++ post.
Proof.
  cbv zeta. split; [apply sorted_permutation|]. split; [apply sorted_ascending|].
  rewrite render_sidebar_unfold, sidebar_rest_run.
  match goal with
  | |- context [snd (?m ?x)] =>
      assert (D : run_draws m)
        by (apply draws_wbind; [apply draws_wwhen, draws_in_page | intros _];
            apply draws_wbind; [apply draws_wwhen, draws_in_page | intros _];
            apply draws_wret);
      destruct (D x) as [ds E]; rewrite E
  end.
  cbn [window_session drawn config set_use_rerank set_top_k_final set_top_k
         set_use_multiagent set_agentic_mode llm_model_name embedding_model_name].
  unfold store_lines. cbn [vector_store_dirs].
  eexists (_ :: _ :: _ :: _ :: nil), ([SideDivider] ++ ds).
  rewrite <- !app_assoc. cbn [app]. reflexivity.
Qed.


(** X19. Only the Clear button takes anything away: a run in which it is not
    pressed leaves the stored messages and the log in front of what it adds,
    and it adds at most two messages and at most one turn. *)
Theorem X19_conversation_only_grows (fresh : RAGConfig) (input : SidebarInput)
    (answer_question : Pipeline) (now now_id now_file : datetime)
    (chat_input : option str) (raw : RawSession) :
  clear_pressed input = false ->
  exists ms ts,
    messages (window_session
                (snd (main fresh input answer_question now now_id now_file chat_input
                        raw))) =
      match raw_messages raw with None => [] | Some l => l end ++ ms /\
    conversation_log (window_session
                        (snd (main fresh input answer_question now now_id now_file
                                chat_input raw))) =
      match raw_conversation_log raw with None => [] | Some l => l end ++ ts /\
    (List.length ms <= 2)%nat /\ (List.length ts <= 1)%nat.
Proof.
  intros C. unfold main. rewrite wbind_get_config.
  set (w0 := {| window_session := init_session_state fresh raw; drawn := [] |}).
  assert (Hm : match raw_messages raw with None => [] | Some l => l end =
               messages (window_session w0)) by reflexivity.
  assert (Hl : match raw_conversation_log raw with None => [] | Some l => l end =
               conversation_log (window_session w0)) by reflexivity.
  rewrite Hm, Hl. clear Hm Hl. clearbody w0.
  destruct (vector_store_dirs (config (window_session w0))).
  - rewrite wbind_draw. exists [], []. cbn [stop snd window_session].
    rewrite !app_nil_r. now repeat split; auto.
  - rewrite wbind_run.
    pose proof (sidebar_keeps_talk input now_id now_file C w0) as T.
    unfold talk in T. injection T as Tm Tl. rewrite <- Tm, <- Tl.
    destruct (render_sidebar input now_id now_file w0) as [[show| |e] w1];
      cbn [snd] in *;
      try (exists [], []; cbn [snd]; rewrite !app_nil_r; now repeat split; auto).
    rewrite wbind_run, in_page_run.
    destruct (render_chat_interface_adds answer_question now chat_input show
                {| session_state := window_session w1; screen := [] |})
      as [ms [ts [Em [Et [Lm Lt]]]]].
    cbn [session_state] in Em, Et.
    exists ms, ts. split; [|split; [|now split]];
      destruct (fst (render_chat_interface _ _ _ _ _)); cbn [snd window_session draw];
      assumption.
Qed.


End ScriptProperties.

Section ScriptExamples.

#[local] Existing Instance posix.

Lemma X15_no_vector_stores_stops_witness :
  vector_store_dirs Scenario.no_stores = [] /\
  main Scenario.no_stores Scenario.clearing Sample.answering Sample.noon Sample.noon
    Sample.noon (Some Sample.asked) (stored (session_state Sample.one_exchange)) =
  (Stopped,
   {| window_session :=
        {| config := Scenario.no_stores;
           messages := messages (session_state Sample.one_exchange);
           conversation_log := conversation_log (session_state Sample.one_exchange) |};
      drawn := [VectorStoresNotFound] |}).
Proof.
  assert (H : vector_store_dirs Scenario.no_stores = []) by reflexivity.
  exact (conj H (X15_no_vector_stores_stops Scenario.no_stores Scenario.clearing
                   Sample.answering Sample.noon Sample.noon Sample.noon
                   (Some Sample.asked) (stored (session_state Sample.one_exchange)) H)).
Defined.


Lemma X19_conversation_only_grows_witness :
  clear_pressed Scenario.quiet = false /\
  exists ms ts,
    messages (window_session
                (snd (main Scenario.several_stores Scenario.quiet Sample.answering
                        Sample.later Sample.later Sample.later (Some Scenario.follow_up)
                        (stored (session_state Sample.one_exchange))))) =
      messages (session_state Sample.one_exchange) ++ ms /\
    conversation_log
      (window_session
         (snd (main Scenario.several_stores Scenario.quiet Sample.answering
                 Sample.later Sample.later Sample.later (Some Scenario.follow_up)
                 (stored (session_state Sample.one_exchange))))) =
      conversation_log (session_state Sample.one_exchange) ++ ts /\
    (List.length ms <= 2)%nat /\ (List.length ts <= 1)%nat.
Proof.
  assert (H : clear_pressed Scenario.quiet = false) by reflexivity.
  exact (conj H (X19_conversation_only_grows Scenario.several_stores Scenario.quiet
                   Sample.answering Sample.later Sample.later Sample.later
                   (Some Scenario.follow_up)
                   (stored (session_state Sample.one_exchange)) H)).
Defined.


End ScriptExamples.
